(** * conn-exporter: the connection collector of [main.go]

    A shallow embedding of [main.go]: the address codec ([parseAddress]),
    the state mapper ([connectionState]), the interface resolver
    ([getNetworkInterfaces], [getInterfaceForIP], [getPrimaryInterface]),
    the table reader ([getTCPConnections]) and the collector ([Collect]).

    Go values are modelled as follows.
    - A Go [byte] is an 8-bit value and a Go [string] a sequence of bytes:
      Rocq's [ascii] and [string].
    - [int], [int64] and [uint64] are [Z]; where the library code relies on
      the width (the overflow checks of [strconv.ParseUint]) the wrap-around
      is written out.
    - [map[string]string] is [gmap string string]; the nil map of the
      package variable [interfaceCache] is [None].
    - A function returning [(T, error)] returns [Result T].
    - The operating system is a parameter ([OS]): what [net.Interfaces]
      answers at each call, and what opening a file gives.  The package
      variable, the files opened and the log are threaded through a state
      monad; [Collect] returns the metrics it sends on its channel.
    - The Prometheus client is outside the model: a metric is the record of
      what [prometheus.MustNewConstMetric] is called with.

    The functions of the Go standard library that [main.go] calls
    ([strings.Split], [strings.Fields], [hex.DecodeString],
    [strconv.ParseInt], [strconv.FormatInt], [net.IP.To4] ...) are modelled
    in [Module Go] after their Go sources. *)

From Stdlib Require Import ZArith NArith String Ascii List Bool Lia.
From Stdlib Require Import DecimalString DecimalZ DecimalN.
From stdpp Require Import gmap strings.
Import ListNotations.

Local Open Scope Z_scope.

(** ** Results and errors *)

(** The two sentinel errors of [strconv]. *)
Inductive numErr := ErrSyntax | ErrRange.

(** The error values that reach [main.go]. *)
Inductive error :=
| ErrorString (msg : string)                      (* fmt.Errorf(...) *)
| HexInvalidByteError (b : ascii)                 (* hex.InvalidByteError *)
| HexErrLength                                    (* hex.ErrLength *)
| NumError (func num : string) (err : numErr)     (* *strconv.NumError *)
| OSError (op path : string).                     (* *os.PathError and the like *)

Inductive Result (A : Type) :=
| OK (a : A)
| Err (e : error).
Arguments OK {A} a.
Arguments Err {A} e.

Definition isOK {A} (r : Result A) : bool :=
  match r with OK _ => true | Err _ => false end.

(** ** The Go standard library, as far as [main.go] uses it *)
Module Go.

Abbreviation byte := ascii (only parsing).

Definition byteVal (c : byte) : Z := Z.of_N (N_of_ascii c).
Definition byteOf (z : Z) : byte := ascii_of_N (Z.to_N (z mod 256)).

Definition len {A} (l : list A) : Z := Z.of_nat (List.length l).
Definition slen (s : string) : Z := Z.of_nat (String.length s).

(** [strconv.Itoa] / [strconv.FormatInt(i, 10)]: the decimal rendering, with
    a leading minus sign for negative numbers. *)
Definition FormatInt (i : Z) : string := NilZero.string_of_int (Z.to_int i).

(** The inverse reading of a decimal numeral. *)
Definition decimalValue (s : string) : option Z :=
  option_map Z.of_int (NilZero.int_of_string s).

(** [strings.Split(s, sep)] for a one-byte separator: the substrings between
    the occurrences of [sep]; one more element than there are separators. *)
Fixpoint Split (s : string) (sep : byte) : list string :=
  match s with
  | EmptyString => [EmptyString]
  | String c rest =>
      if Ascii.eqb c sep then EmptyString :: Split rest sep
      else match Split rest sep with
           | h :: t => String c h :: t
           | [] => [String c EmptyString]
           end
  end.

(** [strings.HasPrefix]. *)
Definition HasPrefix (s prefix : string) : bool := String.prefix prefix s.

(** *** encoding/hex *)

(** [reverseHexTable]: the value of a hexadecimal digit of either case, and
    [0xff] for every other byte. *)
Definition reverseHexTable (c : byte) : Z :=
  let v := byteVal c in
  if (48 <=? v) && (v <=? 57) then v - 48
  else if (97 <=? v) && (v <=? 102) then v - 97 + 10
  else if (65 <=? v) && (v <=? 70) then v - 65 + 10
  else 255.

(** [hex.DecodeString]: pairs of digits to bytes; the first invalid byte is
    reported, and an odd length after that. *)
Fixpoint DecodeString (src : string) : Result (list byte) :=
  match src with
  | EmptyString => OK []
  | String p EmptyString =>
      if reverseHexTable p >? 15 then Err (HexInvalidByteError p)
      else Err HexErrLength
  | String p (String q rest) =>
      let a := reverseHexTable p in
      let b := reverseHexTable q in
      if a >? 15 then Err (HexInvalidByteError p)
      else if b >? 15 then Err (HexInvalidByteError q)
      else match DecodeString rest with
           | OK bs => OK (byteOf (Z.lor (Z.shiftl a 4) b) :: bs)
           | Err e => Err e
           end
  end.

(** *** strconv *)

(** [lower(c)] of [strconv]: [c | ('x' - 'X')]. *)
Definition lower (c : Z) : Z := Z.lor c 32.

(** The digit switch of [ParseUint]: the value of a byte as a digit in a base
    up to 36, [None] where the switch reaches its default case. *)
Definition digitVal (c : Z) : option Z :=
  if (48 <=? c) && (c <=? 57) then Some (c - 48)
  else if (97 <=? lower c) && (lower c <=? 122) then Some (lower c - 97 + 10)
  else None.

Definition maxUint64 : Z := 2 ^ 64 - 1.

(** The loop of [strconv.ParseUint(s, base, 64)] for an explicit base
    (no underscores, no prefix), with [n] the [uint64] accumulator.  As in
    Go the result is a value together with an optional error. *)
Fixpoint parseUintLoop (base : Z) (s : string) (n : Z) : Z * option numErr :=
  match s with
  | EmptyString => (n, None)
  | String ch rest =>
      match digitVal (byteVal ch) with
      | None => (0, Some ErrSyntax)
      | Some d =>
          if d >=? base then (0, Some ErrSyntax)
          else if n >=? maxUint64 / base + 1 then (maxUint64, Some ErrRange)
          else
            let n' := (n * base) mod 2 ^ 64 in
            let n1 := (n' + d) mod 2 ^ 64 in
            if (n1 <? n') || (n1 >? maxUint64) then (maxUint64, Some ErrRange)
            else parseUintLoop base rest n1
      end
  end.

(** [strconv.ParseUint(s, base, 64)] for [2 <= base <= 36]. *)
Definition ParseUint (s : string) (base : Z) : Z * option numErr :=
  match s with
  | EmptyString => (0, Some ErrSyntax)
  | _ => parseUintLoop base s 0
  end.

(** [strconv.ParseInt(s, base, 64)]: an optional sign, then [ParseUint], then
    the range check against [1 << 63].  A range error of [ParseUint] comes
    with the value [maxUint64] and is caught by that check. *)
Definition ParseInt (s : string) (base : Z) : Result Z :=
  match s with
  | EmptyString => Err (NumError "ParseInt" s ErrSyntax)
  | String c0 tl =>
      let '(neg, digits) :=
        if Ascii.eqb c0 "+" then (false, tl)
        else if Ascii.eqb c0 "-" then (true, tl)
        else (false, s) in
      match ParseUint digits base with
      | (_, Some ErrSyntax) => Err (NumError "ParseInt" s ErrSyntax)
      | (un, _) =>
          let cutoff := Z.shiftl 1 63 in
          if negb neg && (un >=? cutoff) then Err (NumError "ParseInt" s ErrRange)
          else if neg && (un >? cutoff) then Err (NumError "ParseInt" s ErrRange)
          else OK (if neg then - un else un)
      end
  end.

(** *** net.IP *)

(** A [net.IP] is a byte slice; the nil slice and the empty slice behave
    alike in [main.go] and are both the empty list. *)
Definition IP := list byte.

Definition v4InV6Prefix : list byte :=
  repeat zero 10 ++ [byteOf 255; byteOf 255].

(** [ip.To4()]: the 4-byte form, [None] for Go's nil result. *)
Definition To4 (ip : IP) : option IP :=
  if len ip =? 4 then Some ip
  else if (len ip =? 16) && bool_decide (take 12 ip = v4InV6Prefix)
       then Some (drop 12 ip)
       else None.

(** [ip.IsLoopback()] where [ip] has a 4-byte form; the IPv6 loopback [::1]
    otherwise. *)
Definition IPv6loopback : IP := repeat zero 15 ++ [byteOf 1].

Definition IsLoopback (ip : IP) : bool :=
  match To4 ip with
  | Some ip4 => match ip4 with
                | b0 :: _ => byteVal b0 =? 127
                | [] => false
                end
  | None => bool_decide (ip = IPv6loopback)
  end.

(** The dotted-decimal text of four bytes. *)
Definition dotted (a b c d : byte) : string :=
  FormatInt (byteVal a) +:+ "." +:+ FormatInt (byteVal b) +:+ "." +:+
  FormatInt (byteVal c) +:+ "." +:+ FormatInt (byteVal d).

(** [ip.String()] for an address that has a 4-byte form, the only addresses
    [main.go] renders.  The IPv6 text forms are not modelled: they are
    rendered here as the marker Go uses for an address of a wrong length. *)
Definition IPString (ip : IP) : string :=
  match To4 ip with
  | Some [a; b; c; d] => dotted a b c d
  | _ => "?"
  end.

(** *** unicode/utf8 and strings.Fields *)

Definition RuneError : Z := 65533.

(** The bounds [acceptRanges] gives for the second byte of a sequence that
    starts with [s0]. *)
Definition acceptRange (s0 : Z) : Z * Z :=
  if s0 =? 224 then (160, 191)
  else if s0 =? 237 then (128, 159)
  else if s0 =? 240 then (144, 191)
  else if s0 =? 244 then (128, 143)
  else (128, 191).

(** [utf8.DecodeRuneInString]: the first rune of [s] and its width in bytes;
    an invalid or truncated sequence is [RuneError] of width 1. *)
Definition DecodeRuneInString (s : string) : Z * nat :=
  match s with
  | EmptyString => (RuneError, 0%nat)
  | String c0 r0 =>
      let s0 := byteVal c0 in
      if s0 <? 128 then (s0, 1%nat)
      else if (s0 <? 194) || (244 <? s0) then (RuneError, 1%nat)
      else
        let sz : Z := if s0 <? 224 then 2 else if s0 <? 240 then 3 else 4 in
        let '(lo, hi) := acceptRange s0 in
        if slen s <? sz then (RuneError, 1%nat)
        else
          match r0 with
          | EmptyString => (RuneError, 1%nat)
          | String c1 r1 =>
              let s1 := byteVal c1 in
              if (s1 <? lo) || (hi <? s1) then (RuneError, 1%nat)
              else if sz <=? 2 then
                (Z.lor (Z.shiftl (Z.land s0 31) 6) (Z.land s1 63), 2%nat)
              else
                match r1 with
                | EmptyString => (RuneError, 1%nat)
                | String c2 r2 =>
                    let s2 := byteVal c2 in
                    if (s2 <? 128) || (191 <? s2) then (RuneError, 1%nat)
                    else if sz <=? 3 then
                      (Z.lor (Z.lor (Z.shiftl (Z.land s0 15) 12)
                                    (Z.shiftl (Z.land s1 63) 6))
                             (Z.land s2 63), 3%nat)
                    else
                      match r2 with
                      | EmptyString => (RuneError, 1%nat)
                      | String c3 _ =>
                          let s3 := byteVal c3 in
                          if (s3 <? 128) || (191 <? s3) then (RuneError, 1%nat)
                          else
                            (Z.lor (Z.lor (Z.lor (Z.shiftl (Z.land s0 7) 18)
                                                 (Z.shiftl (Z.land s1 63) 12))
                                          (Z.shiftl (Z.land s2 63) 6))
                                   (Z.land s3 63), 4%nat)
                      end
                end
          end
  end.

(** [unicode.IsSpace]: the Latin-1 cases, and the [White_Space] table above
    Latin-1. *)
Definition IsSpace (r : Z) : bool :=
  ((9 <=? r) && (r <=? 13)) || (r =? 32) || (r =? 133) || (r =? 160)
  || (r =? 5760) || ((8192 <=? r) && (r <=? 8202))
  || (r =? 8232) || (r =? 8233) || (r =? 8239) || (r =? 8287) || (r =? 12288).

(** For each byte of [s], whether it lies in a white-space rune; [skip]
    counts the bytes still to pass of the rune decoded last, [cur] is that
    rune's class. *)
Fixpoint spaceBytes (s : string) (skip : nat) (cur : bool) : list bool :=
  match s with
  | EmptyString => []
  | String _ rest =>
      match skip with
      | S k => cur :: spaceBytes rest k cur
      | O => let '(r, size) := DecodeRuneInString s in
             let sp := IsSpace r in
             sp :: spaceBytes rest (Nat.pred size) sp
      end
  end.

Definition consField (h : string) (t : list string) : list string :=
  match h with EmptyString => t | _ => h :: t end.

(** The field that starts at the first byte (empty if that byte is white
    space) and the fields after it. *)
Fixpoint spans (s : string) (mask : list bool) : string * list string :=
  match s, mask with
  | String c rest, sp :: m =>
      let '(h, t) := spans rest m in
      if sp then (EmptyString, consField h t) else (String c h, t)
  | _, _ => (EmptyString, [])
  end.

(** [strings.Fields]: the maximal runs of bytes of [s] that hold no
    white-space rune. *)
Definition Fields (s : string) : list string :=
  let '(h, t) := spans s (spaceBytes s 0 false) in consField h t.

End Go.

(** ** The address codec and the state mapper *)

(** [parseAddress] of [main.go] (lines 269-312): the address and the port
    of a [HEXIP:HEXPORT] field. *)
Definition parseAddress (addr : string) : Result (string * string) :=
  let parts := Go.Split addr ":" in
  if negb (Go.len parts =? 2) then
    Err (ErrorString ("invalid address format: " +:+ addr))
  else
    match Go.DecodeString (nth 0 parts EmptyString) with
    | Err e => Err e
    | OK ipBytes =>
        match Go.ParseInt (nth 1 parts EmptyString) 16 with
        | Err e => Err e
        | OK port =>
            if Go.len ipBytes =? 4 then
              let reversedBytes :=
                [nth 3 ipBytes zero; nth 2 ipBytes zero;
                 nth 1 ipBytes zero; nth 0 ipBytes zero] in
              match Go.To4 reversedBytes with
              | Some ip => OK (Go.IPString ip, Go.FormatInt port)
              | None => OK (Go.IPString [], Go.FormatInt port)
              end
            else if Go.len ipBytes =? 16 then
              Err (ErrorString "IPv6 support is currently disabled")
            else
              Err (ErrorString ("invalid IP address length: "
                                +:+ Go.FormatInt (Go.len ipBytes)))
        end
    end.

(** [connectionState] of [main.go] (lines 314-341). *)
Definition connectionState (s : string) : string :=
  if String.eqb s "01" then "ESTABLISHED"
  else if String.eqb s "02" then "SYN_SENT"
  else if String.eqb s "03" then "SYN_RECV"
  else if String.eqb s "04" then "FIN_WAIT1"
  else if String.eqb s "05" then "FIN_WAIT2"
  else if String.eqb s "06" then "TIME_WAIT"
  else if String.eqb s "07" then "CLOSE"
  else if String.eqb s "08" then "CLOSE_WAIT"
  else if String.eqb s "09" then "LAST_ACK"
  else if String.eqb s "0A" then "LISTEN"
  else if String.eqb s "0B" then "CLOSING"
  else "UNKNOWN".


(** ** The operating system and the program state *)

(** An element of what [iface.Addrs()] returns: a [*net.IPNet], a
    [*net.IPAddr], or an address of another type. *)
Inductive Addr :=
| IPNet (ip : Go.IP) (mask : list ascii)
| IPAddr (ip : Go.IP) (zone : string)
| OtherAddr.

(** A [net.Interface] as [main.go] reads it, with the answer of its
    [Addrs()] call. *)
Record Interface := {
  Name : string;
  Flags : Z;
  Addrs : Result (list Addr)
}.

(** [net.FlagUp] and [net.FlagLoopback]: bits 0 and 2 of [net.Flags]. *)
Definition FlagUp : Z := Z.shiftl 1 0.
Definition FlagLoopback : Z := Z.shiftl 1 2.

(** The operating system: the answer of the [n]-th call of
    [net.Interfaces()], and for the [n]-th [os.Open] the lines a
    [bufio.Scanner] delivers from the file. *)
Record OS := {
  Interfaces : nat -> Result (list Interface);
  Open : nat -> string -> Result (list string)
}.

(** What [log.Printf] is called with, by call site. *)
Inductive LogEntry :=
| WarnAddrs (iface : string) (e : error)
| ErrGettingInterfaces (e : error)
| ErrRefreshingInterfaces (e : error)
| ErrGettingTCP (e : error)
| ErrParsingLocal (e : error)
| ErrParsingRemote (e : error).

(** The package variable [interfaceCache] ([None] is the nil map), the
    number of [net.Interfaces()] calls made, the files opened and the log
    written so far. *)
Record State := {
  interfaceCache : option (gmap string string);
  enumerations : nat;
  opened : list string;
  logged : list LogEntry
}.

Definition initialState : State :=
  {| interfaceCache := None; enumerations := 0; opened := []; logged := [] |}.

Definition M (A : Type) : Type := State -> A * State.

Definition ret {A} (a : A) : M A := fun st => (a, st).
Definition bind {A B} (m : M A) (k : A -> M B) : M B :=
  fun st => let '(a, st') := m st in k a st'.

Notation "'let*' x ':=' c 'in' k" := (bind c (fun x => k))
  (at level 10, x name, c at level 100, k at level 200).
Notation "c ';;' k" := (bind c (fun _ => k))
  (at level 100, k at level 200, right associativity, only parsing).

Definition logPrintf (e : LogEntry) : M unit := fun st =>
  (tt, {| interfaceCache := interfaceCache st; enumerations := enumerations st;
          opened := opened st; logged := logged st ++ [e] |}).

Definition setInterfaceCache (c : option (gmap string string)) : M unit := fun st =>
  (tt, {| interfaceCache := c; enumerations := enumerations st;
          opened := opened st; logged := logged st |}).

Definition getInterfaceCache : M (option (gmap string string)) := fun st =>
  (interfaceCache st, st).

Section Program.

Context (os : OS).

(** [net.Interfaces()]. *)
Definition netInterfaces : M (Result (list Interface)) := fun st =>
  (Interfaces os (enumerations st),
   {| interfaceCache := interfaceCache st; enumerations := S (enumerations st);
      opened := opened st; logged := logged st |}).

(** [os.Open(file)] followed by the reading of the whole file through a
    [bufio.Scanner]. *)
Definition osOpen (file : string) : M (Result (list string)) := fun st =>
  (Open os (List.length (opened st)) file,
   {| interfaceCache := interfaceCache st; enumerations := enumerations st;
      opened := opened st ++ [file]; logged := logged st |}).

(** ** The interface resolver *)

(** The body of the inner loop of [getNetworkInterfaces] for one address. *)
Definition mapAddr (name : string) (ipToInterface : gmap string string)
    (addr : Addr) : gmap string string :=
  match addr with
  | OtherAddr => ipToInterface
  | IPNet ip _ | IPAddr ip _ =>
      match ip with
      | [] => ipToInterface
      | _ =>
          if bool_decide (Go.To4 ip <> None) && negb (Go.IsLoopback ip)
          then <[Go.IPString ip := name]> ipToInterface
          else ipToInterface
      end
  end.

(** The outer loop of [getNetworkInterfaces]. *)
Fixpoint mapInterfaces (interfaces : list Interface)
    (ipToInterface : gmap string string) : M (gmap string string) :=
  match interfaces with
  | [] => ret ipToInterface
  | iface :: rest =>
      if (Z.land (Flags iface) FlagUp =? 0)
         || negb (Z.land (Flags iface) FlagLoopback =? 0)
      then mapInterfaces rest ipToInterface
      else
        match Addrs iface with
        | Err e =>
            logPrintf (WarnAddrs (Name iface) e) ;;
            mapInterfaces rest ipToInterface
        | OK addrs =>
            mapInterfaces rest (fold_left (mapAddr (Name iface)) addrs ipToInterface)
        end
  end.

(** [getNetworkInterfaces] of [main.go] (lines 23-67). *)
Definition getNetworkInterfaces : M (Result (gmap string string)) :=
  let* r := netInterfaces in
  match r with
  | Err e => ret (Err e)
  | OK interfaces =>
      let* ipToInterface := mapInterfaces interfaces ∅ in
      ret (OK ipToInterface)
  end.

(** [addr.( *net.IPNet)] with an IPv4 address: the test of the inner loops of
    [getPrimaryInterface]. *)
Definition isIPv4Net (addr : Addr) : bool :=
  match addr with
  | IPNet ip _ => bool_decide (Go.To4 ip <> None)
  | _ => false
  end.

(** The first loop of [getPrimaryInterface]: [Some name] where the loop
    returns, [None] where it runs to its end. *)
Fixpoint preferEthernet (interfaces : list Interface) : option string :=
  match interfaces with
  | [] => None
  | iface :: rest =>
      if negb (Z.land (Flags iface) FlagLoopback =? 0)
         || (Z.land (Flags iface) FlagUp =? 0)
      then preferEthernet rest
      else if Go.HasPrefix (Name iface) "eth" || Go.HasPrefix (Name iface) "en"
      then match Addrs iface with
           | Err _ => preferEthernet rest
           | OK addrs =>
               if existsb isIPv4Net addrs then Some (Name iface)
               else preferEthernet rest
           end
      else preferEthernet rest
  end.

(** The second loop of [getPrimaryInterface]. *)
Fixpoint firstUpIPv4 (interfaces : list Interface) : option string :=
  match interfaces with
  | [] => None
  | iface :: rest =>
      if negb (Z.land (Flags iface) FlagLoopback =? 0)
         || (Z.land (Flags iface) FlagUp =? 0)
      then firstUpIPv4 rest
      else match Addrs iface with
           | Err _ => firstUpIPv4 rest
           | OK addrs =>
               if existsb isIPv4Net addrs then Some (Name iface)
               else firstUpIPv4 rest
           end
  end.

(** [getPrimaryInterface] of [main.go] (lines 115-163). *)
Definition getPrimaryInterface : M string :=
  let* r := netInterfaces in
  match r with
  | Err _ => ret "unknown"
  | OK interfaces =>
      match preferEthernet interfaces with
      | Some name => ret name
      | None =>
          match firstUpIPv4 interfaces with
          | Some name => ret name
          | None => ret "unknown"
          end
      end
  end.

(** [getInterfaceForIP] of [main.go] (lines 70-112). *)
Definition getInterfaceForIP (ip : string) : M string :=
  let* cache := getInterfaceCache in
  let* init :=
    match cache with
    | Some m => ret (OK m)
    | None =>
        let* r := getNetworkInterfaces in
        match r with
        | Err e =>
            setInterfaceCache None ;;
            logPrintf (ErrGettingInterfaces e) ;;
            ret (Err e)
        | OK m => setInterfaceCache (Some m) ;; ret (OK m)
        end
    end in
  match init with
  | Err _ => ret "unknown"
  | OK m =>
      match m !! ip with
      | Some iface => ret iface
      | None =>
          if String.eqb ip "127.0.0.1" then ret "lo"
          else if String.eqb ip "0.0.0.0" then getPrimaryInterface
          else
            let* r := getNetworkInterfaces in
            match r with
            | Err e =>
                setInterfaceCache None ;;
                logPrintf (ErrRefreshingInterfaces e) ;;
                ret "unknown"
            | OK m' =>
                setInterfaceCache (Some m') ;;
                match m' !! ip with
                | Some iface => ret iface
                | None => ret "unknown"
                end
            end
      end
  end.

(** ** The table reader *)

Record tcpConnection := {
  sourceAddress : string;
  sourcePort : string;
  destinationAddress : string;
  destinationPort : string;
  state : string;
  sourceInterface : string
}.

(** The body of the scanning loop of [getTCPConnections] for one line:
    the connections with the line's record appended, or unchanged where the
    loop continues. *)
Definition scanLine (connections : list tcpConnection) (line : string)
    : M (list tcpConnection) :=
  let fields := Go.Fields line in
  if Go.len fields <? 10 then ret connections
  else
    let localAddress := nth 1 fields EmptyString in
    let remoteAddress := nth 2 fields EmptyString in
    let state := nth 3 fields EmptyString in
    match parseAddress localAddress with
    | Err e => logPrintf (ErrParsingLocal e) ;; ret connections
    | OK (sourceAddress, sourcePort) =>
        match parseAddress remoteAddress with
        | Err e => logPrintf (ErrParsingRemote e) ;; ret connections
        | OK (destinationAddress, destinationPort) =>
            let* iface := getInterfaceForIP sourceAddress in
            ret (connections ++
                 [{| sourceAddress := sourceAddress;
                     sourcePort := sourcePort;
                     destinationAddress := destinationAddress;
                     destinationPort := destinationPort;
                     state := connectionState state;
                     sourceInterface := iface |}])
        end
    end.

Fixpoint scanLines (lines : list string) (connections : list tcpConnection)
    : M (list tcpConnection) :=
  match lines with
  | [] => ret connections
  | line :: rest =>
      let* connections := scanLine connections line in
      scanLines rest connections
  end.

(** [getTCPConnections] of [main.go] (lines 221-267); the first line the
    scanner delivers is the header and is dropped. *)
Definition getTCPConnections (file : string) : M (Result (list tcpConnection)) :=
  let* f := osOpen file in
  match f with
  | Err e => ret (Err e)
  | OK lines =>
      let* connections := scanLines (tail lines) [] in
      ret (OK connections)
  end.

(** ** The collector *)

(** A [prometheus.Desc]: the metric's name, help text and label names. *)
Record Desc := {
  fqName : string;
  help : string;
  variableLabels : list string
}.

(** A constant metric as [prometheus.MustNewConstMetric] builds it. *)
Record Metric := {
  desc : Desc;
  value : Z;
  labelValues : list string
}.

Definition namespace : string := "network".
Definition subsystem : string := "connections".

(** [prometheus.BuildFQName]: the non-empty parts joined by underscores; an
    empty name gives the empty string. *)
Definition BuildFQName (namespace subsystem name : string) : string :=
  match name with
  | EmptyString => EmptyString
  | _ =>
      match namespace, subsystem with
      | EmptyString, EmptyString => name
      | EmptyString, _ => subsystem +:+ "_" +:+ name
      | _, EmptyString => namespace +:+ "_" +:+ name
      | _, _ => namespace +:+ "_" +:+ subsystem +:+ "_" +:+ name
      end
  end.

(** The descriptor [newNetworkConnectionsCollector] builds. *)
Definition metric : Desc :=
  {| fqName := BuildFQName namespace subsystem "info";
     help := "Network connection information";
     variableLabels := ["source_address"; "source_port"; "destination_address";
                        "destination_port"; "state"; "interface"] |}.

Definition connMetric (conn : tcpConnection) : Metric :=
  {| desc := metric; value := 1;
     labelValues := [sourceAddress conn; sourcePort conn;
                     destinationAddress conn; destinationPort conn;
                     state conn; sourceInterface conn] |}.

(** [Collect] of [main.go] (lines 189-210): the metrics sent on the channel,
    in order. *)
Definition Collect : M (list Metric) :=
  let* r := getTCPConnections "/proc/net/tcp" in
  match r with
  | Err e => logPrintf (ErrGettingTCP e) ;; ret []
  | OK tcpConnections => ret (map connMetric tcpConnections)
  end.

End Program.

(** ** Definitions for the statements

    [stateTable], [reEncode], [specPrimaryInterface] and [specCollectReads]
    follow the words of the specification; the theorems compare them with
    the program above.  The other definitions name what the theorems say
    about the program. *)

(** The state table of the specification. *)
Definition stateTable : list (string * string) :=
  [("01", "ESTABLISHED"); ("02", "SYN_SENT"); ("03", "SYN_RECV");
   ("04", "FIN_WAIT1"); ("05", "FIN_WAIT2"); ("06", "TIME_WAIT");
   ("07", "CLOSE"); ("08", "CLOSE_WAIT"); ("09", "LAST_ACK");
   ("0A", "LISTEN"); ("0B", "CLOSING")].

Fixpoint assoc (k : string) (t : list (string * string)) : option string :=
  match t with
  | [] => None
  | (k', v) :: t' => if String.eqb k k' then Some v else assoc k t'
  end.

(** A hexadecimal digit of either case, as [hex.DecodeString] accepts it. *)
Definition isHexDigit (c : ascii) : bool := Go.reverseHexTable c <=? 15.

(** A hexadecimal digit as the kernel prints it: [0-9A-F]. *)
Definition isKernelHexDigit (c : ascii) : bool :=
  let v := Go.byteVal c in
  ((48 <=? v) && (v <=? 57)) || ((65 <=? v) && (v <=? 70)).

Fixpoint allChars (P : ascii -> bool) (s : string) : bool :=
  match s with
  | EmptyString => true
  | String c r => P c && allChars P r
  end.

Fixpoint mapChars (f : ascii -> ascii) (s : string) : string :=
  match s with
  | EmptyString => EmptyString
  | String c r => String (f c) (mapChars f r)
  end.

(** The upper-case form of a letter [a-f]. *)
Definition upperHex (c : ascii) : ascii :=
  let v := Go.byteVal c in
  if (97 <=? v) && (v <=? 102) then Go.byteOf (v - 32) else c.

(** The digit [0-9A-F] of a value below 16. *)
Definition hexDigitUpper (v : Z) : ascii :=
  if v <? 10 then Go.byteOf (48 + v) else Go.byteOf (65 + v - 10).

(** The kernel's rendering of bytes: two upper-case digits each. *)
Fixpoint encodeHexUpper (bs : list ascii) : string :=
  match bs with
  | [] => EmptyString
  | b :: r =>
      String (hexDigitUpper (Z.shiftr (Go.byteVal b) 4))
        (String (hexDigitUpper (Z.land (Go.byteVal b) 15)) (encodeHexUpper r))
  end.

(** The octets of a dotted-decimal text. *)
Definition octet (s : string) : option ascii :=
  match Go.decimalValue s with
  | Some v => if (0 <=? v) && (v <=? 255) then Some (Go.byteOf v) else None
  | None => None
  end.

Definition parseDotted (s : string) : option (list ascii) :=
  match Go.Split s "." with
  | [a; b; c; d] =>
      match octet a, octet b, octet c, octet d with
      | Some a, Some b, Some c, Some d => Some [a; b; c; d]
      | _, _, _, _ => None
      end
  | _ => None
  end.

(** Re-encoding a decoded address: its four octets in reversed order, in the
    kernel's hexadecimal form. *)
Definition reEncode (addr : string) : option string :=
  match parseDotted addr with
  | Some bs => Some (encodeHexUpper (rev bs))
  | None => None
  end.

(** The 256 bytes. *)
Definition allBytes : list ascii := map ascii_of_nat (seq 0 256).

Fixpoint hasChar (x : ascii) (s : string) : bool :=
  match s with
  | EmptyString => false
  | String c r => Ascii.eqb c x || hasChar x r
  end.

(** A byte that [strconv.ParseUint] reads as a digit of some base. *)
Definition isDigitByte (c : ascii) : bool :=
  match Go.digitVal (Go.byteVal c) with Some _ => true | None => false end.

(** The fields of a record that the reader decodes from the line alone. *)
Definition core (c : tcpConnection)
    : string * string * string * string * string :=
  (sourceAddress c, sourcePort c, destinationAddress c, destinationPort c,
   state c).

(** What a line contributes: nothing if it has fewer than ten fields or one
    of its two addresses does not decode, else its decoded fields. *)
Definition decodeLine (line : string)
    : option (string * string * string * string * string) :=
  let fields := Go.Fields line in
  if Go.len fields <? 10 then None
  else
    match parseAddress (nth 1 fields EmptyString),
          parseAddress (nth 2 fields EmptyString) with
    | OK (sa, sp), OK (da, dp) =>
        Some (sa, sp, da, dp, connectionState (nth 3 fields EmptyString))
    | _, _ => None
    end.

Definition optionList {A} (o : option A) : list A :=
  match o with Some a => [a] | None => [] end.


(** The address of an [Addr], where it has one. *)
Definition addrIP (a : Addr) : option Go.IP :=
  match a with
  | IPNet ip _ | IPAddr ip _ => Some ip
  | OtherAddr => None
  end.

(** An entry of the cache built from an enumeration: the dotted text of a
    non-loopback IPv4 address of an interface that is up and not a loopback
    interface, mapped to that interface's name. *)
Definition cacheEntry (interfaces : list Interface) (k v : string) : Prop :=
  exists iface addrs addr ip a b c d,
    In iface interfaces
    /\ Z.land (Flags iface) FlagUp <> 0
    /\ Z.land (Flags iface) FlagLoopback = 0
    /\ Name iface = v
    /\ Addrs iface = OK addrs
    /\ In addr addrs
    /\ addrIP addr = Some ip
    /\ Go.To4 ip = Some [a; b; c; d]
    /\ Go.byteVal a <> 127
    /\ k = Go.dotted a b c d.

(** Every entry of [m] comes from the interfaces [ifs]. *)
Definition entriesOf (ifs : list Interface) (m : gmap string string) : Prop :=
  forall k v, m !! k = Some v -> cacheEntry ifs k v.

(** The states the program reaches from its initial state by collection
    passes and resolutions. *)
Inductive reachable (os : OS) : State -> Prop :=
| reachInitial : reachable os initialState
| reachCollect st : reachable os st -> reachable os (snd (Collect os st))
| reachResolve st ip :
    reachable os st -> reachable os (snd (getInterfaceForIP os ip st)).

(** An interface that is up, not a loopback interface, and answers [Addrs]
    with at least one [*net.IPNet] holding an IPv4 address. *)
Definition upWithIPv4 (iface : Interface) : bool :=
  negb (Z.land (Flags iface) FlagUp =? 0)
  && (Z.land (Flags iface) FlagLoopback =? 0)
  && match Addrs iface with
     | OK addrs => existsb isIPv4Net addrs
     | Err _ => false
     end.

Definition ethernetNamed (iface : Interface) : bool :=
  Go.HasPrefix (Name iface) "eth" || Go.HasPrefix (Name iface) "en".

Definition bondingNamed (iface : Interface) : bool :=
  Go.HasPrefix (Name iface) "bond".

Definition nameOr (o : option Interface) (otherwise : string) : string :=
  match o with Some iface => Name iface | None => otherwise end.

(** The priority order of the specification: bonding, then ethernet-named,
    then the first up non-loopback interface with IPv4, then [unknown]. *)
Definition specPrimaryInterface (interfaces : list Interface) : string :=
  nameOr (find (fun i => bondingNamed i && upWithIPv4 i) interfaces)
    (nameOr (find (fun i => ethernetNamed i && upWithIPv4 i) interfaces)
       (nameOr (find upWithIPv4 interfaces) "unknown")).

(** The priority order without the bonding tier. *)
Definition ethernetFirst (interfaces : list Interface) : string :=
  nameOr (find (fun i => ethernetNamed i && upWithIPv4 i) interfaces)
    (nameOr (find upWithIPv4 interfaces) "unknown").

(** What [getPrimaryInterface] answers on the enumeration it makes. *)
Definition primaryOf (r : Result (list Interface)) : string :=
  match r with
  | Err _ => "unknown"
  | OK ifs => ethernetFirst ifs
  end.

(** The paths of [getInterfaceForIP] once the cache [m] is at hand, with
    [n0] enumerations made before. *)
Definition resolved (os : OS) (ip : string) (m : gmap string string)
    (n0 : nat) (name : string) (st' : State) : Prop :=
  (exists iface, m !! ip = Some iface /\ name = iface
     /\ interfaceCache st' = Some m /\ enumerations st' = n0)
  \/ (m !! ip = None /\ ip = "127.0.0.1" /\ name = "lo"
      /\ interfaceCache st' = Some m /\ enumerations st' = n0)
  \/ (m !! ip = None /\ ip = "0.0.0.0"
      /\ name = primaryOf (Interfaces os n0)
      /\ interfaceCache st' = Some m /\ enumerations st' = S n0)
  \/ (m !! ip = None /\ ip <> "127.0.0.1" /\ ip <> "0.0.0.0"
      /\ enumerations st' = S n0
      /\ match Interfaces os n0 with
         | Err e => name = "unknown" /\ interfaceCache st' = None
         | OK ifs =>
             exists m', entriesOf ifs m' /\ interfaceCache st' = Some m'
                        /\ name = default "unknown" (m' !! ip)
         end).

(** The cache of a state holds no entry for the loopback address. *)
Definition noLoopbackKey (st : State) : Prop :=
  forall m, interfaceCache st = Some m -> m !! "127.0.0.1" = None.

(** What a step of the reader may do to the state: keep the files opened,
    make further enumerations, and keep the cache free of a loopback key. *)
Definition evolves (st st' : State) : Prop :=
  opened st' = opened st
  /\ (enumerations st <= enumerations st')%nat
  /\ (noLoopbackKey st -> noLoopbackKey st').


(** The port text of an address field: what follows the colon. *)
Definition portText (addr : string) : string :=
  nth 1 (Go.Split addr ":") EmptyString.

(** The IP text of an address field: what precedes the colon. *)
Definition ipText (addr : string) : string :=
  nth 0 (Go.Split addr ":") EmptyString.

(** A port text without its leading sign, if it has one. *)
Definition unsignedText (port : string) : string :=
  match port with
  | String c tl =>
      if Ascii.eqb c "+" || Ascii.eqb c "-" then tl else port
  | EmptyString => port
  end.

(** ** Example environments *)

Definition ipv4 (a b c d : Z) : Go.IP :=
  [Go.byteOf a; Go.byteOf b; Go.byteOf c; Go.byteOf d].

Definition mask24 : list ascii :=
  [Go.byteOf 255; Go.byteOf 255; Go.byteOf 255; Go.byteOf 0].

Definition lo : Interface :=
  {| Name := "lo"; Flags := Z.lor FlagUp FlagLoopback;
     Addrs := OK [IPNet (ipv4 127 0 0 1) mask24] |}.

Definition bond0 : Interface :=
  {| Name := "bond0"; Flags := FlagUp;
     Addrs := OK [IPNet (ipv4 10 0 0 1) mask24] |}.

Definition eth0 : Interface :=
  {| Name := "eth0"; Flags := FlagUp;
     Addrs := OK [IPNet (ipv4 10 0 0 5) mask24; IPNet (ipv4 10 0 0 6) mask24] |}.

Definition tableHeader : string :=
  "  sl  local_address rem_address   st tx_queue rx_queue tr tm->when retrnsmt   uid  timeout inode".

Definition rowTail : string :=
  " 00000000:00000000 00:00000000 00000000     0        0 12345 1 0000000000000000 100 0 0 10 0".

(** A TCP table: two listeners (ports 22 and 0), an established connection
    from the listening port 22, a truncated row, and a row whose state code
    is outside the table. *)
Definition exampleTable : list string :=
  [tableHeader;
   "   0: 0100007F:0016 00000000:0000 0A" +:+ rowTail;
   "   1: 00000000:0000 00000000:0000 0A" +:+ rowTail;
   "   2: 0500000A:0016 0900000A:D431 01" +:+ rowTail;
   "   3: 0500000A:0016 0900000A:D431 01";
   "   4: 0700000A:0050 0900000A:D432 0C" +:+ rowTail].

Definition exampleOS : OS :=
  {| Interfaces := fun _ => OK [lo; bond0; eth0];
     Open := fun _ file =>
       if String.eqb file "/proc/net/tcp" then OK exampleTable
       else Err (OSError "open" file) |}.

(** A system whose interface enumeration fails and whose tables are
    missing. *)
Definition brokenOS : OS :=
  {| Interfaces := fun _ => Err (OSError "route" "netlinkrib");
     Open := fun _ file => Err (OSError "open" file) |}.

(** A state whose cache holds an entry for the loopback address. *)
Definition loopbackCached : State :=
  {| interfaceCache := Some {[ "127.0.0.1" := "eth0" ]};
     enumerations := 0; opened := []; logged := [] |}.



(** The state after a first resolution on the example system: the cache is
    built. *)
Definition cachedState : State :=
  snd (getInterfaceForIP exampleOS "10.0.0.5" initialState).


(** ** Definitions for further properties of [main.go] *)

(** The entry one address of an interface named [name] adds to the cache, if
    it adds one. *)
Definition addrEntry (name : string) (addr : Addr) : option (string * string) :=
  match addrIP addr with
  | Some (b :: r) =>
      if bool_decide (Go.To4 (b :: r) <> None) && negb (Go.IsLoopback (b :: r))
      then Some (Go.IPString (b :: r), name)
      else None
  | _ => None
  end.

(** The entries an interface adds to the cache, in the order of its
    addresses: none if it is down, a loopback interface, or fails to give its
    addresses. *)
Definition interfaceEntries (iface : Interface) : list (string * string) :=
  if (Z.land (Flags iface) FlagUp =? 0)
     || negb (Z.land (Flags iface) FlagLoopback =? 0)
  then []
  else match Addrs iface with
       | OK addrs => omap (addrEntry (Name iface)) addrs
       | Err _ => []
       end.

(** All the entries an enumeration adds, in order. *)
Definition cacheInsertions (interfaces : list Interface) : list (string * string) :=
  flat_map interfaceEntries interfaces.

(** The value bound last to [k] in a list of bindings. *)
Definition lastBinding (k : string) (l : list (string * string)) : option string :=
  assoc k (rev l).

(** The warning an interface causes in [getNetworkInterfaces], if any. *)
Definition addrsWarning (iface : Interface) : option LogEntry :=
  if (Z.land (Flags iface) FlagUp =? 0)
     || negb (Z.land (Flags iface) FlagLoopback =? 0)
  then None
  else match Addrs iface with
       | OK _ => None
       | Err e => Some (WarnAddrs (Name iface) e)
       end.

(** Adding one binding to a map. *)
Definition insertBinding (m : gmap string string) (kv : string * string)
    : gmap string string := <[kv.1 := kv.2]> m.

(** The cache an enumeration answer builds: nil if the enumeration fails. *)
Definition builtCache (r : Result (list Interface))
    : option (gmap string string) :=
  match r with
  | OK ifs => Some (fold_left insertBinding (cacheInsertions ifs) ∅)
  | Err _ => None
  end.

(** What [getInterfaceForIP] answers while every enumeration answers [r]. *)
Definition stableAnswer (r : Result (list Interface)) (ip : string) : string :=
  match r with
  | Err _ => "unknown"
  | OK ifs =>
      match lastBinding ip (cacheInsertions ifs) with
      | Some name => name
      | None =>
          if String.eqb ip "127.0.0.1" then "lo"
          else if String.eqb ip "0.0.0.0" then ethernetFirst ifs
          else "unknown"
      end
  end.


(** The cache is nil or the one the answer [r] builds. *)
Definition cacheFresh (r : Result (list Interface)) (st : State) : Prop :=
  interfaceCache st = None \/ interfaceCache st = builtCache r.

(** The part of [getInterfaceForIP] that runs once the cache [m] is at hand
    (lines 82-111 of [main.go]). *)
Definition resolveWith (os : OS) (ip : string) (m : gmap string string)
    : M string :=
  match m !! ip with
  | Some iface => ret iface
  | None =>
      if String.eqb ip "127.0.0.1" then ret "lo"
      else if String.eqb ip "0.0.0.0" then getPrimaryInterface os
      else
        let* r := getNetworkInterfaces os in
        match r with
        | Err e =>
            setInterfaceCache None ;;
            logPrintf (ErrRefreshingInterfaces e) ;;
            ret "unknown"
        | OK m' =>
            setInterfaceCache (Some m') ;;
            match m' !! ip with
            | Some iface => ret iface
            | None => ret "unknown"
            end
        end
  end.

(** What a line that gives no record writes to the log: nothing if it has
    fewer than ten fields, else the error of the first address that fails. *)
Definition skipLog (line : string) : list LogEntry :=
  let fields := Go.Fields line in
  if Go.len fields <? 10 then []
  else
    match parseAddress (nth 1 fields EmptyString) with
    | Err e => [ErrParsingLocal e]
    | OK _ =>
        match parseAddress (nth 2 fields EmptyString) with
        | Err e => [ErrParsingRemote e]
        | OK _ => []
        end
    end.

(** The record of a decoded line, given its interface. *)
Definition recordOf (t : string * string * string * string * string)
    (iface : string) : tcpConnection :=
  let '(sa, sp, da, dp, s) := t in
  {| sourceAddress := sa; sourcePort := sp;
     destinationAddress := da; destinationPort := dp;
     state := s; sourceInterface := iface |}.

(** A state with entries added to its log. *)
Definition withLog (st : State) (l : list LogEntry) : State :=
  {| interfaceCache := interfaceCache st; enumerations := enumerations st;
     opened := opened st; logged := logged st ++ l |}.





(** The name of an interface that some enumeration gave as up and no
    loopback interface. *)
Definition enumerated (os : OS) (name : string) : Prop :=
  exists n ifs iface,
    Interfaces os n = OK ifs /\ In iface ifs
    /\ Z.land (Flags iface) FlagUp <> 0
    /\ Z.land (Flags iface) FlagLoopback = 0
    /\ Name iface = name.

(** What an interface label can be. *)
Definition interfaceLabel (os : OS) (name : string) : Prop :=
  name = "unknown" \/ name = "lo" \/ enumerated os name.

(** Every value of the map names an enumerated interface. *)
Definition valuesEnumerated (os : OS) (m : gmap string string) : Prop :=
  forall k v, m !! k = Some v -> enumerated os v.

Definition cacheEnumerated (os : OS) (st : State) : Prop :=
  forall m, interfaceCache st = Some m -> valuesEnumerated os m.


(** The number a text of hexadecimal digits denotes, read from [n] on. *)
Fixpoint hexValueFrom (n : Z) (s : string) : Z :=
  match s with
  | EmptyString => n
  | String c r => hexValueFrom (n * 16 + Go.reverseHexTable c) r
  end.

Definition hexValue (s : string) : Z := hexValueFrom 0 s.

(** The field the kernel writes for the address [a.b.c.d] and the port whose
    bytes are [hi] and [lo]: the address bytes in reversed order and the
    port, in upper-case hexadecimal digits. *)
Definition kernelField (a b c d hi lo : ascii) : string :=
  encodeHexUpper [d; c; b; a] +:+ ":" +:+ encodeHexUpper [hi; lo].




(** ** Bytes and strings *)

Lemma allBytes_complete (c : ascii) : In c allBytes.
Proof.
  unfold allBytes. rewrite <- (ascii_nat_embedding c).
  apply in_map, in_seq. pose proof (nat_ascii_bounded c). lia.
Qed.

(** A property checked on the 256 bytes holds of every byte. *)
Lemma forall_bytes (P : ascii -> bool) :
  forallb P allBytes = true -> forall c, P c = true.
Proof.
  intros H c. rewrite forallb_forall in H. apply H, allBytes_complete.
Qed.

Lemma forall_bytes2 (P : ascii -> ascii -> bool) :
  forallb (fun c => forallb (P c) allBytes) allBytes = true ->
  forall c d, P c d = true.
Proof.
  intros H c d.
  apply (forall_bytes (P c)).
  apply (forall_bytes (fun c => forallb (P c) allBytes) H c).
Qed.

Lemma Split_no_sep s sep : hasChar sep s = false -> Go.Split s sep = [s].
Proof.
  induction s as [|c r IH]; simpl; [reflexivity|].
  intros H. apply orb_false_iff in H as [Hc Hr].
  rewrite Hc, (IH Hr). reflexivity.
Qed.

Lemma Split_app_sep s1 s2 sep :
  hasChar sep s1 = false ->
  Go.Split (s1 +:+ String sep s2) sep = s1 :: Go.Split s2 sep.
Proof.
  induction s1 as [|c r IH]; simpl.
  - intros _. rewrite Ascii.eqb_refl. reflexivity.
  - intros H. apply orb_false_iff in H as [Hc Hr].
    rewrite Hc, (IH Hr). reflexivity.
Qed.

Lemma allChars_hasChar P x s :
  allChars P s = true -> P x = false -> hasChar x s = false.
Proof.
  induction s as [|c r IH]; simpl; [reflexivity|].
  intros H Hx. apply andb_true_iff in H as [Hc Hr].
  rewrite (IH Hr Hx), orb_false_r.
  destruct (Ascii.eqb_spec c x) as [->|]; [congruence | reflexivity].
Qed.

(** ** The state mapper *)

Lemma connectionState_table s :
  connectionState s = default "UNKNOWN" (assoc s stateTable).
Proof.
  unfold connectionState, stateTable; simpl.
  repeat (destruct (String.eqb s _); [reflexivity|]).
  reflexivity.
Qed.

(** ** The address codec *)

Lemma DecodeString_pair p q rest :
  isHexDigit p = true -> isHexDigit q = true ->
  Go.DecodeString (String p (String q rest)) =
  match Go.DecodeString rest with
  | OK bs =>
      OK (Go.byteOf (Z.lor (Z.shiftl (Go.reverseHexTable p) 4)
                           (Go.reverseHexTable q)) :: bs)
  | Err e => Err e
  end.
Proof.
  unfold isHexDigit. intros Hp Hq. cbn [Go.DecodeString].
  destruct (Z.gtb_spec (Go.reverseHexTable p) 15); [lia|].
  destruct (Z.gtb_spec (Go.reverseHexTable q) 15); [lia|].
  reflexivity.
Qed.

(** Two digits decode to the byte that the kernel prints as these digits. *)
Lemma hex_pair_roundtrip p q :
  isHexDigit p = true -> isHexDigit q = true ->
  encodeHexUpper
    [Go.byteOf (Z.lor (Z.shiftl (Go.reverseHexTable p) 4) (Go.reverseHexTable q))]
  = String (upperHex p) (String (upperHex q) EmptyString).
Proof.
  intros Hp Hq.
  pose (chk := fun p q : ascii =>
    implb (isHexDigit p && isHexDigit q)
      (String.eqb
         (encodeHexUpper
            [Go.byteOf (Z.lor (Z.shiftl (Go.reverseHexTable p) 4)
                              (Go.reverseHexTable q))])
         (String (upperHex p) (String (upperHex q) EmptyString)))).
  assert (H : chk p q = true) by (apply forall_bytes2; vm_compute; reflexivity).
  unfold chk in H. rewrite Hp, Hq in H. simpl in H.
  apply String.eqb_eq, H.
Qed.

Lemma upperHex_kernel s :
  allChars isKernelHexDigit s = true -> mapChars upperHex s = s.
Proof.
  induction s as [|c r IH]; simpl; [reflexivity|].
  intros H. apply andb_true_iff in H as [Hc Hr]. rewrite (IH Hr). f_equal.
  pose (chk := fun c : ascii =>
    implb (isKernelHexDigit c) (Ascii.eqb (upperHex c) c)).
  assert (H : chk c = true) by (apply forall_bytes; vm_compute; reflexivity).
  unfold chk in H. rewrite Hc in H. simpl in H. apply Ascii.eqb_eq, H.
Qed.

Lemma isKernelHexDigit_hex c : isKernelHexDigit c = true -> isHexDigit c = true.
Proof.
  pose (chk := fun c : ascii => implb (isKernelHexDigit c) (isHexDigit c)).
  assert (H : chk c = true) by (apply forall_bytes; vm_compute; reflexivity).
  unfold chk in H. intros Hc. rewrite Hc in H. exact H.
Qed.

(** The decimal text of a byte reads back as that byte and holds no dot. *)
Lemma octet_FormatInt c :
  octet (Go.FormatInt (Go.byteVal c)) = Some c
  /\ hasChar "." (Go.FormatInt (Go.byteVal c)) = false.
Proof.
  pose (chk := fun c : ascii =>
    match octet (Go.FormatInt (Go.byteVal c)) with
    | Some c' => Ascii.eqb c' c
    | None => false
    end && negb (hasChar "." (Go.FormatInt (Go.byteVal c)))).
  assert (H : chk c = true) by (apply forall_bytes; vm_compute; reflexivity).
  unfold chk in H. apply andb_true_iff in H as [H1 H2].
  split.
  - destruct (octet _) as [c'|]; [|discriminate].
    apply Ascii.eqb_eq in H1. congruence.
  - now apply negb_true_iff in H2.
Qed.

Lemma parseDotted_dotted a b c d :
  parseDotted (Go.dotted a b c d) = Some [a; b; c; d].
Proof.
  unfold parseDotted, Go.dotted.
  destruct (octet_FormatInt a) as [Ha Na], (octet_FormatInt b) as [Hb Nb],
           (octet_FormatInt c) as [Hc Nc], (octet_FormatInt d) as [Hd Nd].
  assert (dot : forall x, "." +:+ x = String "." x) by reflexivity.
  rewrite !dot.
  rewrite (Split_app_sep _ _ _ Na), (Split_app_sep _ _ _ Nb),
          (Split_app_sep _ _ _ Nc), (Split_no_sep _ _ Nd).
  now rewrite Ha, Hb, Hc, Hd.
Qed.

(** The dotted text determines the bytes. *)
Lemma dotted_inj a b c d a' b' c' d' :
  Go.dotted a b c d = Go.dotted a' b' c' d' ->
  a = a' /\ b = b' /\ c = c' /\ d = d'.
Proof.
  intros H. pose proof (parseDotted_dotted a b c d) as E.
  rewrite H, parseDotted_dotted in E. now inversion E.
Qed.

(** *** The port *)

Lemma parseUintLoop_range base s n v :
  Go.parseUintLoop base s n = (v, Some ErrRange) -> v = Go.maxUint64.
Proof.
  revert n. induction s as [|c r IH]; intros n; simpl; [discriminate|].
  destruct (Go.digitVal _) as [d|]; [|discriminate].
  destruct (d >=? base); [discriminate|].
  destruct (n >=? _); [now inversion 1|].
  destruct (_ || _); [now inversion 1 | apply IH].
Qed.

Lemma parseUintLoop_digits base s n v :
  Go.parseUintLoop base s n = (v, None) -> allChars isDigitByte s = true.
Proof.
  revert n. induction s as [|c r IH]; intros n; simpl; [reflexivity|].
  unfold isDigitByte at 1.
  destruct (Go.digitVal _) as [d|]; [|discriminate].
  destruct (d >=? base); [discriminate|].
  destruct (n >=? _); [discriminate|].
  destruct (_ || _); [discriminate | apply IH].
Qed.

(** Where [ParseInt] succeeds, [ParseUint] has read the digits after the
    sign without error, and the value is in the range of [int64]. *)
Lemma ParseInt_OK s base v :
  Go.ParseInt s base = OK v ->
  exists c0 tl neg digits un,
    s = String c0 tl
    /\ (neg, digits) = (if Ascii.eqb c0 "+" then (false, tl)
                        else if Ascii.eqb c0 "-" then (true, tl)
                        else (false, s))
    /\ Go.ParseUint digits base = (un, None)
    /\ v = (if neg then - un else un)
    /\ (if neg then un <= 2 ^ 63 else un < 2 ^ 63).
Proof.
  destruct s as [|c0 tl]; [discriminate|].
  unfold Go.ParseInt.
  destruct (if Ascii.eqb c0 "+" then _ else _) as [neg digits] eqn:E.
  destruct (Go.ParseUint digits base) as [un [[]|]] eqn:U; [discriminate| |].
  - assert (un = Go.maxUint64) as ->.
    { unfold Go.ParseUint in U. destruct digits; [discriminate|].
      eapply parseUintLoop_range, U. }
    destruct neg; discriminate.
  - change (Z.shiftl 1 63) with (2 ^ 63).
    destruct neg; simpl.
    + destruct (Z.gtb_spec un (2 ^ 63)); [discriminate|].
      intros [= <-]. exists c0, tl, true, digits, un. repeat split; auto.
    + destruct (Z.geb_spec un (2 ^ 63)); [discriminate|].
      intros [= <-]. exists c0, tl, false, digits, un. repeat split; auto.
Qed.

Lemma ParseInt_no_colon s base v :
  Go.ParseInt s base = OK v -> hasChar ":" s = false.
Proof.
  intros H. apply ParseInt_OK in H
    as (c0 & tl & neg & digits & un & -> & E & U & _).
  assert (D : allChars isDigitByte digits = true).
  { unfold Go.ParseUint in U. destruct digits; [reflexivity|].
    eapply parseUintLoop_digits, U. }
  assert (N : hasChar ":" digits = false)
    by (eapply allChars_hasChar; [exact D | reflexivity]).
  destruct (Ascii.eqb_spec c0 "+") as [->|];
    [injection E as -> ->; exact N|].
  destruct (Ascii.eqb_spec c0 "-") as [->|];
    [injection E as -> ->; exact N|].
  injection E as -> ->. exact N.
Qed.

(** [parseAddress] on a field whose two parts are known. *)
Lemma parseAddress_parts hexip port :
  hasChar ":" hexip = false -> hasChar ":" port = false ->
  parseAddress (hexip +:+ ":" +:+ port) =
  match Go.DecodeString hexip with
  | Err e => Err e
  | OK ipBytes =>
      match Go.ParseInt port 16 with
      | Err e => Err e
      | OK v =>
          match ipBytes with
          | [b0; b1; b2; b3] => OK (Go.dotted b3 b2 b1 b0, Go.FormatInt v)
          | _ =>
              if Go.len ipBytes =? 16
              then Err (ErrorString "IPv6 support is currently disabled")
              else Err (ErrorString ("invalid IP address length: "
                                     +:+ Go.FormatInt (Go.len ipBytes)))
          end
      end
  end.
Proof.
  intros Hh Hp. unfold parseAddress.
  change (":" +:+ port) with (String ":" port).
  rewrite (Split_app_sep _ _ _ Hh), (Split_no_sep _ _ Hp).
  cbn [Go.len List.length nth Z.eqb negb Z.of_nat Pos.of_succ_nat Pos.succ
       Pos.eqb].
  destruct (Go.DecodeString hexip) as [ipBytes|e]; [|reflexivity].
  destruct (Go.ParseInt port 16) as [v|e]; [|reflexivity].
  destruct ipBytes as [|b0 [|b1 [|b2 [|b3 [|b4 r]]]]]; try reflexivity.
  unfold Go.len. cbn [List.length].
  destruct (Z.eqb_spec (Z.of_nat (S (S (S (S (S (List.length r))))))) 4);
    [lia | reflexivity].
Qed.

Lemma encodeHexUpper_cons b r :
  encodeHexUpper (b :: r) = encodeHexUpper [b] +:+ encodeHexUpper r.
Proof. reflexivity. Qed.

(** The decoding of eight digits, and its re-encoding. *)
Lemma DecodeString_eight hexip :
  String.length hexip = 8%nat -> allChars isHexDigit hexip = true ->
  exists b0 b1 b2 b3,
    Go.DecodeString hexip = OK [b0; b1; b2; b3]
    /\ encodeHexUpper [b0; b1; b2; b3] = mapChars upperHex hexip.
Proof.
  intros L H.
  destruct hexip as [|c0 [|c1 [|c2 [|c3 [|c4 [|c5 [|c6 [|c7 [|c8 r]]]]]]]]];
    try discriminate L.
  cbn [allChars] in H.
  repeat (apply andb_true_iff in H as [? H]).
  do 4 eexists. split.
  - rewrite !DecodeString_pair by assumption. reflexivity.
  - rewrite (encodeHexUpper_cons _ [_; _; _]), (encodeHexUpper_cons _ [_; _]),
            (encodeHexUpper_cons _ [_]), !hex_pair_roundtrip by assumption.
    reflexivity.
Qed.

(** C1. For every address field made of eight hexadecimal digits, a colon and
    a port that [strconv.ParseInt] accepts in base 16, [parseAddress]
    hex-decodes the digits to four bytes and returns the dotted-decimal text
    of these bytes in reversed order, with the port in decimal.  Reading the
    four octets back and encoding them in reversed order gives the eight
    digits again: in the kernel's upper-case form, hence the field's own
    digits when they are the kernel's.  In particular [0100007F:0016] decodes
    to [127.0.0.1] and [00000000:0000] to [0.0.0.0]. *)
Theorem parseAddress_roundtrip (hexip port : string) (v : Z) :
  String.length hexip = 8%nat ->
  allChars isHexDigit hexip = true ->
  Go.ParseInt port 16 = OK v ->
  exists b0 b1 b2 b3,
    Go.DecodeString hexip = OK [b0; b1; b2; b3]
    /\ parseAddress (hexip +:+ ":" +:+ port)
       = OK (Go.dotted b3 b2 b1 b0, Go.FormatInt v)
    /\ parseDotted (Go.dotted b3 b2 b1 b0) = Some (rev [b0; b1; b2; b3])
    /\ reEncode (Go.dotted b3 b2 b1 b0) = Some (mapChars upperHex hexip)
    /\ (allChars isKernelHexDigit hexip = true ->
        reEncode (Go.dotted b3 b2 b1 b0) = Some hexip)
    /\ parseAddress "0100007F:0016" = OK ("127.0.0.1", "22")
    /\ parseAddress "00000000:0000" = OK ("0.0.0.0", "0").
Proof.
  intros L H P.
  destruct (DecodeString_eight hexip L H) as (b0 & b1 & b2 & b3 & D & E).
  exists b0, b1, b2, b3.
  assert (R : reEncode (Go.dotted b3 b2 b1 b0) = Some (mapChars upperHex hexip)).
  { unfold reEncode. rewrite parseDotted_dotted. cbn [rev app].
    now rewrite E. }
  repeat split.
  - exact D.
  - rewrite parseAddress_parts, D, P; [reflexivity | | ].
    + eapply allChars_hasChar; [exact H | reflexivity].
    + eapply ParseInt_no_colon, P.
  - apply parseDotted_dotted.
  - exact R.
  - intros K. now rewrite R, (upperHex_kernel _ K).
Qed.

Lemma parseAddress_roundtrip_witness :
  exists b0 b1 b2 b3,
    Go.DecodeString "0500000A" = OK [b0; b1; b2; b3]
    /\ parseAddress ("0500000A" +:+ ":" +:+ "D431")
       = OK (Go.dotted b3 b2 b1 b0, Go.FormatInt 54321)
    /\ parseDotted (Go.dotted b3 b2 b1 b0) = Some (rev [b0; b1; b2; b3])
    /\ reEncode (Go.dotted b3 b2 b1 b0) = Some (mapChars upperHex "0500000A")
    /\ (allChars isKernelHexDigit "0500000A" = true ->
        reEncode (Go.dotted b3 b2 b1 b0) = Some "0500000A")
    /\ parseAddress "0100007F:0016" = OK ("127.0.0.1", "22")
    /\ parseAddress "00000000:0000" = OK ("0.0.0.0", "0").
Proof.
  apply (parseAddress_roundtrip "0500000A" "D431" 54321); reflexivity.
Defined.

(** ** The table reader *)

Lemma scanLine_core os conns line st :
  map core (fst (scanLine os conns line st))
  = map core conns ++ optionList (decodeLine line).
Proof.
  unfold scanLine, decodeLine.
  destruct (Go.len (Go.Fields line) <? 10); [simpl; now rewrite app_nil_r|].
  destruct (parseAddress (nth 1 _ _)) as [[sa sp]|e];
    [|simpl; now rewrite app_nil_r].
  destruct (parseAddress (nth 2 _ _)) as [[da dp]|e];
    [|simpl; now rewrite app_nil_r].
  unfold bind, ret. destruct (getInterfaceForIP os sa st) as [iface st'].
  simpl. now rewrite map_app.
Qed.

Lemma scanLines_core os lines : forall conns st,
  map core (fst (scanLines os lines conns st))
  = map core conns ++ omap decodeLine lines.
Proof.
  induction lines as [|line rest IH]; intros conns st; simpl.
  - now rewrite app_nil_r.
  - unfold bind. destruct (scanLine os conns line st) as [conns' st'] eqn:E.
    rewrite IH. pose proof (scanLine_core os conns line st) as C.
    rewrite E in C. simpl in C. rewrite C, <- app_assoc. f_equal.
    destruct (decodeLine line); reflexivity.
Qed.

(** The reader fails only where the file cannot be opened; otherwise it
    returns the decoded lines after the header, in order. *)
Lemma getTCPConnections_core os file st :
  match Open os (List.length (opened st)) file with
  | Err e => fst (getTCPConnections os file st) = Err e
  | OK lines =>
      exists conns,
        fst (getTCPConnections os file st) = OK conns
        /\ map core conns = omap decodeLine (tail lines)
  end.
Proof.
  unfold getTCPConnections, bind, osOpen.
  destruct (Open os _ file) as [lines|e]; [|reflexivity].
  match goal with |- context [scanLines os (tail lines) [] ?s] =>
    pose proof (scanLines_core os (tail lines) [] s) as C;
    destruct (scanLines os (tail lines) [] s) as [conns st']
  end.
  exists conns. split; [reflexivity | exact C].
Qed.

(** C2. [connectionState] returns the name the fixed table gives for the
    codes [01] to [0B] and [UNKNOWN] for every other string, never an error;
    and a row whose state code is outside the table is still emitted by the
    reader, as a record whose state is [UNKNOWN]. *)
Theorem connectionState_table_total (s : string) :
  connectionState s = default "UNKNOWN" (assoc s stateTable)
  /\ (assoc s stateTable = None -> connectionState s = "UNKNOWN")
  /\ map (fun kv => connectionState (fst kv)) stateTable = map snd stateTable
  /\ connectionState "0A" = "LISTEN"
  /\ forall os file st lines before line after sa sp da dp,
       Open os (List.length (opened st)) file = OK lines ->
       tail lines = before ++ line :: after ->
       10 <= Go.len (Go.Fields line) ->
       nth 3 (Go.Fields line) EmptyString = s ->
       assoc s stateTable = None ->
       parseAddress (nth 1 (Go.Fields line) EmptyString) = OK (sa, sp) ->
       parseAddress (nth 2 (Go.Fields line) EmptyString) = OK (da, dp) ->
       exists conns,
         fst (getTCPConnections os file st) = OK conns
         /\ In (sa, sp, da, dp, "UNKNOWN") (map core conns).
Proof.
  pose proof (connectionState_table s) as T.
  split; [exact T|]. split; [intros N; now rewrite T, N|].
  split; [reflexivity|]. split; [reflexivity|].
  intros os file st lines before line after sa sp da dp O L F S N P1 P2.
  pose proof (getTCPConnections_core os file st) as G. rewrite O in G.
  destruct G as (conns & G & C). exists conns. split; [exact G|].
  rewrite C, L, omap_app. apply in_or_app. right.
  cbn [omap list_omap]. unfold decodeLine at 1.
  destruct (Z.ltb_spec (Go.len (Go.Fields line)) 10); [lia|].
  rewrite P1, P2, S, T, N. left. reflexivity.
Qed.

(** ** The interface resolver *)

Lemma To4_four ip l :
  Go.To4 ip = Some l -> exists a b c d, l = [a; b; c; d].
Proof.
  unfold Go.To4, Go.len. intros H.
  assert (L : List.length l = 4%nat).
  { destruct (Z.eqb_spec (Z.of_nat (List.length ip)) 4) as [E|_].
    - injection H as <-. lia.
    - destruct (Z.eqb_spec (Z.of_nat (List.length ip)) 16) as [E|_];
        [|discriminate].
      destruct (bool_decide _); [|discriminate].
      injection H as <-. rewrite length_drop. lia. }
  destruct l as [|a [|b [|c [|d [|e r]]]]]; try discriminate L.
  now exists a, b, c, d.
Qed.

Lemma cacheEntry_not_loopback ifs v : ~ cacheEntry ifs "127.0.0.1" v.
Proof.
  intros (iface & addrs & addr & ip & a & b & c & d & H).
  destruct H as (_ & _ & _ & _ & _ & _ & _ & _ & N & E).
  change "127.0.0.1" with
    (Go.dotted (Go.byteOf 127) (Go.byteOf 0) (Go.byteOf 0) (Go.byteOf 1)) in E.
  apply dotted_inj in E as [<- _]. now apply N.
Qed.

Section Enumeration.

Context (ifs : list Interface).

Lemma mapAddr_entries iface addrs addr m :
  In iface ifs ->
  Z.land (Flags iface) FlagUp <> 0 ->
  Z.land (Flags iface) FlagLoopback = 0 ->
  Addrs iface = OK addrs -> In addr addrs ->
  entriesOf ifs m -> entriesOf ifs (mapAddr (Name iface) m addr).
Proof.
  intros Hin Hup Hlo Haddrs Haddr Hm k v.
  unfold mapAddr.
  assert (step : forall ip, addrIP addr = Some ip ->
    (match ip with
     | [] => m
     | _ :: _ =>
         if bool_decide (Go.To4 ip <> None) && negb (Go.IsLoopback ip)
         then <[Go.IPString ip := Name iface]> m else m
     end) !! k = Some v -> cacheEntry ifs k v).
  { intros ip Hip. destruct ip as [|x r]; [apply Hm|].
    destruct (bool_decide _ && _) eqn:C; [|apply Hm].
    apply andb_true_iff in C as [C1 C2].
    apply bool_decide_eq_true in C1. apply negb_true_iff in C2.
    destruct (Go.To4 (x :: r)) as [l|] eqn:T; [|congruence].
    destruct (To4_four _ _ T) as (a & b & c & d & ->).
    unfold Go.IsLoopback in C2. rewrite T in C2. apply Z.eqb_neq in C2.
    unfold Go.IPString. rewrite T.
    destruct (decide (Go.dotted a b c d = k)) as [<-|Hne].
    - rewrite lookup_insert_eq. intros [= <-].
      exists iface, addrs, addr, (x :: r), a, b, c, d. repeat split; auto.
    - rewrite lookup_insert_ne by exact Hne. apply Hm. }
  destruct addr as [ip mask|ip zone|]; [apply (step ip) | apply (step ip) | apply Hm];
    reflexivity.
Qed.

Lemma fold_mapAddr_entries iface addrs :
  In iface ifs ->
  Z.land (Flags iface) FlagUp <> 0 ->
  Z.land (Flags iface) FlagLoopback = 0 ->
  Addrs iface = OK addrs ->
  forall l m, incl l addrs -> entriesOf ifs m ->
    entriesOf ifs (fold_left (mapAddr (Name iface)) l m).
Proof.
  intros Hin Hup Hlo Haddrs l.
  induction l as [|addr l IH]; intros m Hl Hm; simpl; [exact Hm|].
  apply IH; [intros x Hx; apply Hl; now right|].
  eapply mapAddr_entries; eauto. apply Hl. now left.
Qed.

Lemma mapInterfaces_entries rest : forall m st,
  incl rest ifs -> entriesOf ifs m ->
  entriesOf ifs (fst (mapInterfaces rest m st)).
Proof.
  induction rest as [|iface rest IH]; intros m st Hincl Hm; simpl; [exact Hm|].
  assert (Hrest : incl rest ifs) by (intros x Hx; apply Hincl; now right).
  assert (Hin : In iface ifs) by (apply Hincl; now left).
  destruct (Z.eqb_spec (Z.land (Flags iface) FlagUp) 0) as [|Hup];
    [now apply IH|].
  destruct (Z.eqb_spec (Z.land (Flags iface) FlagLoopback) 0) as [Hlo|];
    [|now apply IH].
  simpl. destruct (Addrs iface) as [addrs|e] eqn:A.
  - apply IH; [exact Hrest|].
    eapply fold_mapAddr_entries; eauto. apply incl_refl.
  - unfold bind, logPrintf. now apply IH.
Qed.

End Enumeration.

(** [mapInterfaces] writes to the log only. *)
Lemma mapInterfaces_frame rest : forall m st,
  let st' := snd (mapInterfaces rest m st) in
  interfaceCache st' = interfaceCache st
  /\ enumerations st' = enumerations st
  /\ opened st' = opened st.
Proof.
  induction rest as [|iface rest IH]; intros m st; simpl; [auto|].
  destruct (_ || _); [apply IH|].
  destruct (Addrs iface); [apply IH|].
  unfold bind, logPrintf.
  match goal with |- context [mapInterfaces rest m ?s] =>
    destruct (IH m s) as (A & B & C) end.
  simpl in *. auto.
Qed.

(** [getNetworkInterfaces]: one enumeration; the error of the enumeration, or
    a map whose entries all come from the interfaces enumerated. *)
Lemma getNetworkInterfaces_spec os st :
  let r := fst (getNetworkInterfaces os st) in
  let st' := snd (getNetworkInterfaces os st) in
  interfaceCache st' = interfaceCache st
  /\ enumerations st' = S (enumerations st)
  /\ opened st' = opened st
  /\ match Interfaces os (enumerations st) with
     | Err e => r = Err e
     | OK ifs => exists m, r = OK m /\ entriesOf ifs m
     end.
Proof.
  unfold getNetworkInterfaces, bind, netInterfaces, ret.
  destruct (Interfaces os (enumerations st)) as [ifs|e]; simpl; [|auto].
  match goal with |- context [mapInterfaces ifs ∅ ?s] =>
    pose proof (mapInterfaces_frame ifs ∅ s) as (F1 & F2 & F3);
    pose proof (mapInterfaces_entries ifs ifs ∅ s (incl_refl _)) as E;
    destruct (mapInterfaces ifs ∅ s) as [m st'] eqn:Q
  end.
  simpl in *. repeat split; auto.
  exists m. split; [reflexivity|]. apply E.
  intros k v. rewrite lookup_empty. discriminate.
Qed.

Lemma preferEthernet_find ifs :
  preferEthernet ifs
  = option_map Name (find (fun i => ethernetNamed i && upWithIPv4 i) ifs).
Proof.
  induction ifs as [|iface rest IH]; simpl; [reflexivity|].
  unfold upWithIPv4, ethernetNamed.
  destruct (Z.land (Flags iface) FlagLoopback =? 0),
           (Z.land (Flags iface) FlagUp =? 0); simpl;
    rewrite ?andb_false_r; try exact IH.
  destruct (_ || _); simpl; [|exact IH].
  destruct (Addrs iface) as [addrs|e]; [|exact IH].
  destruct (existsb isIPv4Net addrs); [reflexivity | exact IH].
Qed.

Lemma firstUpIPv4_find ifs :
  firstUpIPv4 ifs = option_map Name (find upWithIPv4 ifs).
Proof.
  induction ifs as [|iface rest IH]; simpl; [reflexivity|].
  unfold upWithIPv4.
  destruct (Z.land (Flags iface) FlagLoopback =? 0),
           (Z.land (Flags iface) FlagUp =? 0); simpl; try exact IH.
  destruct (Addrs iface) as [addrs|e]; [|exact IH].
  destruct (existsb isIPv4Net addrs); [reflexivity | exact IH].
Qed.

Lemma getPrimaryInterface_spec os st :
  getPrimaryInterface os st
  = (primaryOf (Interfaces os (enumerations st)),
     {| interfaceCache := interfaceCache st;
        enumerations := S (enumerations st);
        opened := opened st; logged := logged st |}).
Proof.
  unfold getPrimaryInterface, bind, netInterfaces, ret, primaryOf, ethernetFirst.
  destruct (Interfaces os (enumerations st)) as [ifs|e]; [|reflexivity].
  rewrite preferEthernet_find, firstUpIPv4_find.
  destruct (find (fun i => _ && _) ifs); simpl; [reflexivity|].
  destruct (find upWithIPv4 ifs); reflexivity.
Qed.

Lemma lookupPhase os ip m st :
  interfaceCache st = Some m ->
  forall name st',
  (match m !! ip with
   | Some iface => ret iface
   | None =>
       if String.eqb ip "127.0.0.1" then ret "lo"
       else if String.eqb ip "0.0.0.0" then getPrimaryInterface os
       else
         let* r := getNetworkInterfaces os in
         match r with
         | Err e =>
             setInterfaceCache None ;;
             logPrintf (ErrRefreshingInterfaces e) ;;
             ret "unknown"
         | OK m' =>
             setInterfaceCache (Some m') ;;
             match m' !! ip with
             | Some iface => ret iface
             | None => ret "unknown"
             end
         end
   end) st = (name, st') ->
  opened st' = opened st /\ resolved os ip m (enumerations st) name st'.
Proof.
  intros Hc name st'. unfold resolved.
  destruct (m !! ip) as [iface|] eqn:L.
  { intros [= <- <-]. split; [reflexivity|]. left. eauto. }
  destruct (String.eqb_spec ip "127.0.0.1") as [->|N1].
  { intros [= <- <-]. split; [reflexivity|]. right; left. auto. }
  destruct (String.eqb_spec ip "0.0.0.0") as [->|N2].
  { rewrite getPrimaryInterface_spec. intros [= <- <-]. simpl.
    split; [reflexivity|]. right; right; left. auto. }
  unfold bind.
  pose proof (getNetworkInterfaces_spec os st) as (S1 & S2 & S3 & S4).
  destruct (getNetworkInterfaces os st) as [r s1]. simpl in *.
  destruct (Interfaces os (enumerations st)) as [ifs|e].
  - destruct S4 as (m' & -> & E). unfold setInterfaceCache, ret.
    destruct (m' !! ip) as [iface|] eqn:L'; intros [= <- <-]; simpl;
      (split; [exact S3|]); right; right; right;
      repeat split; auto; exists m'; rewrite L'; auto.
  - subst r. unfold setInterfaceCache, logPrintf, ret. intros [= <- <-]. simpl.
    split; [exact S3|]. right; right; right. repeat split; auto.
Qed.

(** The paths of [getInterfaceForIP]: the initialisation of a nil cache fails
    and the answer is [unknown], or the cache is at hand and the lookup
    phase runs. *)
Lemma getInterfaceForIP_cases os ip st name st' :
  getInterfaceForIP os ip st = (name, st') ->
  opened st' = opened st
  /\ ((interfaceCache st = None
       /\ (exists e, Interfaces os (enumerations st) = Err e)
       /\ name = "unknown" /\ interfaceCache st' = None
       /\ enumerations st' = S (enumerations st))
      \/ (exists m, interfaceCache st = Some m
            /\ resolved os ip m (enumerations st) name st')
      \/ (exists m ifs, interfaceCache st = None
            /\ Interfaces os (enumerations st) = OK ifs
            /\ entriesOf ifs m
            /\ resolved os ip m (S (enumerations st)) name st')).
Proof.
  intros H. unfold getInterfaceForIP in H.
  unfold bind at 1 in H. unfold getInterfaceCache in H.
  cbv beta iota in H.
  destruct (interfaceCache st) as [m|] eqn:Hc.
  - unfold bind at 1, ret at 1 in H. cbv beta iota in H.
    apply (lookupPhase os ip m st Hc) in H as [Q1 Q2].
    split; [exact Q1|]. right; left. eauto.
  - unfold bind at 1 2 in H.
    pose proof (getNetworkInterfaces_spec os st) as (S1 & S2 & S3 & S4).
    destruct (getNetworkInterfaces os st) as [r s1]. simpl in S1, S2, S3, S4.
    destruct (Interfaces os (enumerations st)) as [ifs|e].
    + destruct S4 as (m & -> & E).
      unfold bind at 1, setInterfaceCache at 1, ret at 1 in H.
      cbv beta iota in H.
      apply (lookupPhase os ip m) in H as [Q1 Q2]; [|reflexivity].
      simpl in *. split; [congruence|]. right; right.
      exists m, ifs. rewrite <- S2. auto.
    + subst r. unfold bind, setInterfaceCache, logPrintf, ret in H.
      injection H as <- <-. simpl.
      split; [exact S3|]. left. repeat split; eauto.
Qed.

Lemma entriesOf_no_loopback ifs m : entriesOf ifs m -> m !! "127.0.0.1" = None.
Proof.
  intros E. destruct (m !! "127.0.0.1") as [v|] eqn:L; [|reflexivity].
  exfalso. eapply cacheEntry_not_loopback, E, L.
Qed.

(** A resolution makes at most two enumerations, and leaves the cache as it
    was, empty, or rebuilt from an enumeration. *)
Lemma getInterfaceForIP_effect os ip st name st' :
  getInterfaceForIP os ip st = (name, st') ->
  (enumerations st <= enumerations st' <= enumerations st + 2)%nat
  /\ (interfaceCache st' = interfaceCache st
      \/ interfaceCache st' = None
      \/ exists m ifs, interfaceCache st' = Some m /\ entriesOf ifs m).
Proof.
  intros H. apply getInterfaceForIP_cases in H as [_ H].
  assert (R : forall m n0, resolved os ip m n0 name st' ->
    (n0 <= enumerations st' <= n0 + 1)%nat
    /\ (interfaceCache st' = Some m \/ interfaceCache st' = None
        \/ exists m ifs, interfaceCache st' = Some m /\ entriesOf ifs m)).
  { intros m n0 [(i & _ & _ & C & N)|[(_ & _ & _ & C & N)|[(_ & _ & _ & C & N)|
      (_ & _ & _ & N & C)]]]; (split; [lia|]); auto.
    destruct (Interfaces os n0) as [ifs|e].
    - destruct C as (m' & E & C & _). right; right. eauto.
    - destruct C as [_ C]. auto. }
  destruct H as [(C & _ & _ & C' & N)|[(m & C & Q)|(m & ifs & C & _ & E & Q)]].
  - split; [lia | auto].
  - apply R in Q as [Q1 Q2]. split; [lia|]. rewrite C.
    destruct Q2 as [Q2|[Q2|Q2]]; auto.
  - apply R in Q as [Q1 Q2]. split; [lia|].
    destruct Q2 as [Q2|[Q2|Q2]]; auto. right; right. eauto.
Qed.

Lemma evolves_refl st : evolves st st.
Proof. unfold evolves. auto. Qed.

Lemma evolves_trans st1 st2 st3 :
  evolves st1 st2 -> evolves st2 st3 -> evolves st1 st3.
Proof.
  unfold evolves. intros (A1 & B1 & C1) (A2 & B2 & C2).
  repeat split; [congruence | lia | auto].
Qed.

Lemma getInterfaceForIP_evolves os ip st :
  evolves st (snd (getInterfaceForIP os ip st)).
Proof.
  destruct (getInterfaceForIP os ip st) as [name st'] eqn:H. simpl.
  pose proof (getInterfaceForIP_cases _ _ _ _ _ H) as [O _].
  apply getInterfaceForIP_effect in H as [N C].
  repeat split; [exact O | lia |].
  intros K m Hm. destruct C as [C|[C|(m' & ifs & C & E)]].
  - apply K. congruence.
  - congruence.
  - rewrite C in Hm. injection Hm as <-. eapply entriesOf_no_loopback, E.
Qed.

(** A line leaves the state as it is, writes to the log, or makes one
    resolution. *)
Lemma scanLine_state os conns line st :
  let st' := snd (scanLine os conns line st) in
  st' = st
  \/ (exists e, st' = snd (logPrintf e st))
  \/ (exists ip, st' = snd (getInterfaceForIP os ip st)).
Proof.
  unfold scanLine.
  destruct (Go.len (Go.Fields line) <? 10); [now left|].
  destruct (parseAddress (nth 1 _ _)) as [[sa sp]|e];
    [|right; left; now exists (ErrParsingLocal e)].
  destruct (parseAddress (nth 2 _ _)) as [[da dp]|e];
    [|right; left; now exists (ErrParsingRemote e)].
  right; right. exists sa. unfold bind, ret.
  now destruct (getInterfaceForIP os sa st).
Qed.

Lemma scanLine_evolves os conns line st :
  evolves st (snd (scanLine os conns line st)).
Proof.
  destruct (scanLine_state os conns line st) as [->|[[e ->]|[ip ->]]].
  - apply evolves_refl.
  - unfold evolves, noLoopbackKey. simpl. auto.
  - apply getInterfaceForIP_evolves.
Qed.

Lemma scanLines_evolves os lines : forall conns st,
  evolves st (snd (scanLines os lines conns st)).
Proof.
  induction lines as [|line rest IH]; intros conns st; simpl;
    [apply evolves_refl|].
  unfold bind.
  pose proof (scanLine_evolves os conns line st) as E.
  destruct (scanLine os conns line st) as [conns' st1]. simpl in E.
  eapply evolves_trans; [exact E | apply IH].
Qed.

(** A pass opens the TCP table and nothing else; where the table cannot be
    opened it logs the error and emits nothing, otherwise it emits the
    records decoded from the lines after the header. *)
Lemma Collect_spec os st ms st' :
  Collect os st = (ms, st') ->
  opened st' = opened st ++ ["/proc/net/tcp"]
  /\ (enumerations st <= enumerations st')%nat
  /\ (noLoopbackKey st -> noLoopbackKey st')
  /\ match Open os (List.length (opened st)) "/proc/net/tcp" with
     | Err e =>
         ms = [] /\ logged st' = logged st ++ [ErrGettingTCP e]
         /\ interfaceCache st' = interfaceCache st
         /\ enumerations st' = enumerations st
     | OK lines =>
         exists conns,
           ms = map connMetric conns
           /\ map core conns = omap decodeLine (tail lines)
     end.
Proof.
  unfold Collect, bind at 1, getTCPConnections, bind at 1, osOpen.
  destruct (Open os _ _) as [lines|e].
  - unfold bind at 1.
    match goal with |- context [scanLines os (tail lines) [] ?s] =>
      pose proof (scanLines_evolves os (tail lines) [] s) as (A & B & C);
      pose proof (scanLines_core os (tail lines) [] s) as D;
      destruct (scanLines os (tail lines) [] s) as [conns st1]
    end.
    unfold ret. intros [= <- <-]. simpl in *. repeat split; auto.
    exists conns. auto.
  - unfold ret, bind, logPrintf. intros [= <- <-]. simpl.
    unfold noLoopbackKey. simpl. auto 10.
Qed.

Lemma reachable_noLoopbackKey os st : reachable os st -> noLoopbackKey st.
Proof.
  induction 1 as [|st R IH|st ip R IH].
  - intros m. discriminate.
  - destruct (Collect os st) as [ms st'] eqn:C. simpl.
    now apply (Collect_spec _ _ _ _ C).
  - now apply getInterfaceForIP_evolves.
Qed.

Lemma connectionState_table_total_witness :
  exists conns,
    fst (getTCPConnections exampleOS "/proc/net/tcp" initialState) = OK conns
    /\ In ("10.0.0.7", "80", "10.0.0.9", "54322", "UNKNOWN") (map core conns).
Proof.
  destruct (connectionState_table_total "0C") as (_ & _ & _ & _ & H).
  apply (H exampleOS "/proc/net/tcp" initialState exampleTable
           (firstn 4 (tail exampleTable))
           (nth 4 (tail exampleTable) EmptyString) []);
    try reflexivity.
  vm_compute. discriminate.
Defined.

(** ** The collector *)





(** ** Special addresses *)

(** C5, counterexample. With an entry for [127.0.0.1] in the cache the
    exact-match lookup answers before the loopback case is reached, and with
    a nil cache whose initialisation fails the answer is [unknown]: the
    loopback case does not short-circuit the rest of [getInterfaceForIP]. *)
Lemma loopback_not_first_counterexample :
  fst (getInterfaceForIP exampleOS "127.0.0.1" loopbackCached) = "eth0"
  /\ fst (getInterfaceForIP brokenOS "127.0.0.1" initialState) = "unknown".
Proof. split; vm_compute; reflexivity. Qed.

(** Where the cache has no loopback entry, or is nil and can be initialised,
    the loopback address resolves to [lo]. *)
Lemma loopback_resolves os st :
  match interfaceCache st with
  | Some m => m !! "127.0.0.1" = None
  | None => isOK (Interfaces os (enumerations st)) = true
  end ->
  fst (getInterfaceForIP os "127.0.0.1" st) = "lo".
Proof.
  intros H. destruct (getInterfaceForIP os "127.0.0.1" st) as [name st'] eqn:G.
  apply getInterfaceForIP_cases in G as [_ G]. simpl.
  assert (R : forall m n0, m !! "127.0.0.1" = None ->
                resolved os "127.0.0.1" m n0 name st' -> name = "lo").
  { intros m n0 N [(i & L & _)|[(_ & _ & -> & _)|[(_ & E & _)|(_ & E & _)]]];
      congruence. }
  destruct G as [(C & (e & E) & _)|[(m & C & Q)|(m & ifs & C & _ & E & Q)]].
  - rewrite C, E in H. discriminate.
  - rewrite C in H. eapply R; eauto.
  - eapply R; eauto. eapply entriesOf_no_loopback, E.
Qed.

(** C5, amended. Resolving [127.0.0.1] with [getInterfaceForIP] returns [lo]
    whenever the cache holds no entry for [127.0.0.1] or, being nil, is
    initialised by an enumeration that succeeds: the loopback case comes
    after the initialisation of the cache and the exact-match lookup. *)
Theorem getInterfaceForIP_loopback os st :
  match interfaceCache st with
  | Some m => m !! "127.0.0.1" = None
  | None => isOK (Interfaces os (enumerations st)) = true
  end ->
  fst (getInterfaceForIP os "127.0.0.1" st) = "lo".
Proof. apply loopback_resolves. Qed.

Lemma getInterfaceForIP_loopback_witness :
  fst (getInterfaceForIP exampleOS "127.0.0.1" initialState) = "lo".
Proof. apply (getInterfaceForIP_loopback exampleOS initialState). reflexivity. Defined.

(** C6, counterexample. With a bonding interface and an ethernet interface
    both up and holding IPv4 addresses, the priority order of the
    specification selects [bond0], and resolving [0.0.0.0] gives [eth0]. *)
Lemma primary_bonding_counterexample :
  Interfaces exampleOS 1 = OK [lo; bond0; eth0]
  /\ specPrimaryInterface [lo; bond0; eth0] = "bond0"
  /\ fst (getInterfaceForIP exampleOS "0.0.0.0" initialState) = "eth0"
  /\ fst (getPrimaryInterface exampleOS initialState) = "eth0".
Proof. repeat split; vm_compute; reflexivity. Qed.

(** C6, amended. [getPrimaryInterface] selects by the fixed priority order:
    the first up, non-loopback interface named [eth...] or [en...] that has
    an IPv4 address; else the first up, non-loopback interface that has an
    IPv4 address; else [unknown], which is also its answer when the
    enumeration fails.  Resolving [0.0.0.0] gives that interface whenever the
    cache is at hand and holds no entry for [0.0.0.0]. *)
Theorem getPrimaryInterface_ethernet_first os st m :
  interfaceCache st = Some m ->
  m !! "0.0.0.0" = None ->
  (forall st0,
     fst (getPrimaryInterface os st0)
     = match Interfaces os (enumerations st0) with
       | Err _ => "unknown"
       | OK ifs =>
           nameOr (find (fun i => ethernetNamed i && upWithIPv4 i) ifs)
             (nameOr (find upWithIPv4 ifs) "unknown")
       end)
  /\ getInterfaceForIP os "0.0.0.0" st = getPrimaryInterface os st
  /\ (forall st0 m0 s1,
        interfaceCache st0 = None ->
        getNetworkInterfaces os st0 = (OK m0, s1) ->
        m0 !! "0.0.0.0" = None ->
        fst (getInterfaceForIP os "0.0.0.0" st0)
        = fst (getPrimaryInterface os s1)).
Proof.
  intros C L. split; [|split].
  - intros st0. rewrite getPrimaryInterface_spec. reflexivity.
  - unfold getInterfaceForIP, bind at 1, getInterfaceCache.
    rewrite C. unfold bind at 1, ret at 1. rewrite L. reflexivity.
  - intros st0 m0 s1 C0 G L0.
    unfold getInterfaceForIP, bind at 1, getInterfaceCache.
    rewrite C0. unfold bind at 1 2. rewrite G.
    unfold bind at 1, setInterfaceCache at 1, ret at 1. rewrite L0.
    cbn [String.eqb Ascii.eqb Bool.eqb]. cbv iota.
    rewrite !getPrimaryInterface_spec. reflexivity.
Qed.

Lemma getPrimaryInterface_ethernet_first_witness :
  (forall st0,
     fst (getPrimaryInterface exampleOS st0)
     = match Interfaces exampleOS (enumerations st0) with
       | Err _ => "unknown"
       | OK ifs =>
           nameOr (find (fun i => ethernetNamed i && upWithIPv4 i) ifs)
             (nameOr (find upWithIPv4 ifs) "unknown")
       end)
  /\ getInterfaceForIP exampleOS "0.0.0.0" cachedState
     = getPrimaryInterface exampleOS cachedState
  /\ (forall st0 m0 s1,
        interfaceCache st0 = None ->
        getNetworkInterfaces exampleOS st0 = (OK m0, s1) ->
        m0 !! "0.0.0.0" = None ->
        fst (getInterfaceForIP exampleOS "0.0.0.0" st0)
        = fst (getPrimaryInterface exampleOS s1)).
Proof.
  eapply (getPrimaryInterface_ethernet_first exampleOS cachedState).
  - vm_compute. reflexivity.
  - vm_compute. reflexivity.
Defined.

(** ** Resolution of other addresses *)




(** ** Malformed address fields *)

Lemma digitVal_hex c :
  match Go.digitVal (Go.byteVal c) with
  | Some d => d <? 16
  | None => false
  end = isHexDigit c.
Proof.
  pose (chk := fun c : ascii =>
    Bool.eqb match Go.digitVal (Go.byteVal c) with
             | Some d => d <? 16
             | None => false
             end (isHexDigit c)).
  assert (H : chk c = true) by (apply forall_bytes; vm_compute; reflexivity).
  now apply Bool.eqb_prop in H.
Qed.

Lemma parseUintLoop_hex s : forall n v,
  Go.parseUintLoop 16 s n = (v, None) -> allChars isHexDigit s = true.
Proof.
  induction s as [|c r IH]; intros n v; simpl; [reflexivity|].
  rewrite <- (digitVal_hex c).
  destruct (Go.digitVal _) as [d|]; [|discriminate].
  destruct (Z.geb_spec d 16); [discriminate|].
  destruct (Z.ltb_spec d 16); [|lia].
  destruct (n >=? _); [discriminate|].
  destruct (_ || _); [discriminate | simpl; apply IH].
Qed.

Lemma unsignedText_digits c0 tl neg digits :
  (neg, digits) = (if Ascii.eqb c0 "+" then (false, tl)
                   else if Ascii.eqb c0 "-" then (true, tl)
                   else (false, String c0 tl)) ->
  digits = unsignedText (String c0 tl).
Proof.
  unfold unsignedText.
  destruct (Ascii.eqb c0 "+"), (Ascii.eqb c0 "-"); simpl; congruence.
Qed.

(** A port that [ParseInt] accepts in base 16 is made of hexadecimal digits
    after an optional sign. *)
Lemma ParseInt_hex port v :
  Go.ParseInt port 16 = OK v ->
  allChars isHexDigit (unsignedText port) = true.
Proof.
  intros H. apply ParseInt_OK in H
    as (c0 & tl & neg & digits & un & -> & E & U & _).
  rewrite <- (unsignedText_digits _ _ _ _ E).
  unfold Go.ParseUint in U. destruct digits; [reflexivity|].
  eapply parseUintLoop_hex, U.
Qed.

Lemma ParseInt_Err s base e :
  Go.ParseInt s base = Err e -> exists k, e = NumError "ParseInt" s k.
Proof.
  unfold Go.ParseInt. destruct s as [|c0 tl]; [intros [= <-]; eauto|].
  destruct (if Ascii.eqb c0 "+" then _ else _) as [neg digits].
  destruct (Go.ParseUint digits base) as [un [[]|]];
    try (intros [= <-]; eauto);
    destruct (_ && _); try (intros [= <-]; eauto);
    destruct (_ && _); try (intros [= <-]; eauto); discriminate.
Qed.

(** [hex.DecodeString] reports a byte that is no digit, if there is one. *)
Lemma DecodeString_invalid s :
  (allChars isHexDigit s = false ->
   exists b, isHexDigit b = false
             /\ Go.DecodeString s = Err (HexInvalidByteError b))
  /\ (forall c, allChars isHexDigit (String c s) = false ->
        exists b, isHexDigit b = false
                  /\ Go.DecodeString (String c s) = Err (HexInvalidByteError b)).
Proof.
  assert (T : forall c, isHexDigit c = true -> (Go.reverseHexTable c >? 15) = false).
  { intros c H. unfold isHexDigit in H. apply Z.leb_le in H.
    destruct (Z.gtb_spec (Go.reverseHexTable c) 15); [lia | reflexivity]. }
  assert (F : forall c, isHexDigit c = false -> (Go.reverseHexTable c >? 15) = true).
  { intros c H. unfold isHexDigit in H. apply Z.leb_gt in H.
    destruct (Z.gtb_spec (Go.reverseHexTable c) 15); [reflexivity | lia]. }
  induction s as [|q r [IH1 IH2]].
  - split; [discriminate|]. intros c H. simpl in H.
    rewrite andb_true_r in H. exists c. split; [exact H|].
    simpl. now rewrite (F c H).
  - split; [apply IH2|].
    intros c H. cbn [allChars] in H. cbn [Go.DecodeString].
    destruct (isHexDigit c) eqn:Hc.
    + rewrite (T c Hc). simpl in H.
      destruct (isHexDigit q) eqn:Hq.
      * rewrite (T q Hq). simpl in H. destruct (IH1 H) as (b & Hb & ->).
        eauto.
      * rewrite (F q Hq). eauto.
    + rewrite (F c Hc). eauto.
Qed.

Lemma DecodeString_OK_hex s : forall bs,
  Go.DecodeString s = OK bs -> allChars isHexDigit s = true.
Proof.
  intros bs H. destruct (allChars isHexDigit s) eqn:A; [reflexivity|].
  destruct (proj1 (DecodeString_invalid s) A) as (b & _ & E). congruence.
Qed.

(** [parseAddress] on a field that splits in two. *)
Lemma parseAddress_two addr :
  Go.len (Go.Split addr ":") = 2 ->
  parseAddress addr =
  match Go.DecodeString (ipText addr) with
  | Err e => Err e
  | OK ipBytes =>
      match Go.ParseInt (portText addr) 16 with
      | Err e => Err e
      | OK v =>
          match ipBytes with
          | [b0; b1; b2; b3] => OK (Go.dotted b3 b2 b1 b0, Go.FormatInt v)
          | _ =>
              if Go.len ipBytes =? 16
              then Err (ErrorString "IPv6 support is currently disabled")
              else Err (ErrorString ("invalid IP address length: "
                                     +:+ Go.FormatInt (Go.len ipBytes)))
          end
      end
  end.
Proof.
  intros L. unfold parseAddress, ipText, portText. rewrite L. simpl negb.
  cbv iota.
  destruct (Go.DecodeString _) as [ipBytes|e]; [|reflexivity].
  destruct (Go.ParseInt _ 16) as [v|e]; [|reflexivity].
  destruct ipBytes as [|b0 [|b1 [|b2 [|b3 [|b4 r]]]]]; try reflexivity.
  unfold Go.len. cbn [List.length].
  destruct (Z.eqb_spec (Z.of_nat (S (S (S (S (S (List.length r))))))) 4);
    [lia | reflexivity].
Qed.

(** C8, counterexample. A port with a leading sign holds a byte that is no
    hexadecimal digit, and [parseAddress] returns an address for it. *)
Lemma signed_port_counterexample :
  allChars isHexDigit "+16" = false
  /\ hasChar "+" "+16" = true
  /\ isHexDigit "+" = false
  /\ parseAddress "0100007F:+16" = OK ("127.0.0.1", "22")
  /\ parseAddress "0100007F:-16" = OK ("127.0.0.1", "-22").
Proof. repeat split; vm_compute; reflexivity. Qed.

(** C8, amended. [parseAddress] fails, and so returns no address, for each
    malformed shape: a field that does not split on the colon into exactly
    two parts; a byte that is no hexadecimal digit in the IP part or, after
    one optional leading sign, in the port part; a decoded IP of a byte count
    other than four, where sixteen bytes fail with the message that IPv6
    support is disabled.  The errors of the shapes are pairwise different.
    The table reader skips every line with fewer than ten fields and every
    line one of whose addresses fails to decode, and goes on with the lines
    that follow. *)
Theorem parseAddress_malformed addr :
  (Go.len (Go.Split addr ":") <> 2 ->
   parseAddress addr = Err (ErrorString ("invalid address format: " +:+ addr)))
  /\ (Go.len (Go.Split addr ":") = 2 ->
      (allChars isHexDigit (ipText addr) = false ->
       exists b, isHexDigit b = false
                 /\ parseAddress addr = Err (HexInvalidByteError b))
      /\ (isOK (Go.DecodeString (ipText addr)) = true ->
          allChars isHexDigit (unsignedText (portText addr)) = false ->
          exists k, parseAddress addr = Err (NumError "ParseInt" (portText addr) k))
      /\ (forall bs v,
            Go.DecodeString (ipText addr) = OK bs ->
            Go.ParseInt (portText addr) 16 = OK v ->
            Go.len bs <> 4 ->
            parseAddress addr
            = Err (ErrorString
                     (if Go.len bs =? 16 then "IPv6 support is currently disabled"
                      else "invalid IP address length: "
                           +:+ Go.FormatInt (Go.len bs)))))
  /\ (forall r, parseAddress addr = OK r ->
        Go.len (Go.Split addr ":") = 2
        /\ allChars isHexDigit (ipText addr) = true
        /\ (exists bs, Go.DecodeString (ipText addr) = OK bs /\ Go.len bs = 4)
        /\ allChars isHexDigit (unsignedText (portText addr)) = true)
  /\ (forall a b p k n,
        NoDup [ErrorString ("invalid address format: " +:+ a);
               HexInvalidByteError b;
               NumError "ParseInt" p k;
               ErrorString "IPv6 support is currently disabled";
               ErrorString ("invalid IP address length: " +:+ Go.FormatInt n)])
  /\ (forall os file st lines,
        Open os (List.length (opened st)) file = OK lines ->
        exists conns,
          fst (getTCPConnections os file st) = OK conns
          /\ map core conns = omap decodeLine (tail lines))
  /\ (forall line,
        Go.len (Go.Fields line) < 10
        \/ isOK (parseAddress (nth 1 (Go.Fields line) EmptyString)) = false
        \/ isOK (parseAddress (nth 2 (Go.Fields line) EmptyString)) = false ->
        decodeLine line = None).
Proof.
  split; [|split; [|split; [|split; [|split]]]].
  - intros L. unfold parseAddress.
    destruct (Z.eqb_spec (Go.len (Go.Split addr ":")) 2); [contradiction|].
    reflexivity.
  - intros L. rewrite (parseAddress_two addr L). split; [|split].
    + intros H. destruct (proj1 (DecodeString_invalid _) H) as (b & Hb & ->).
      eauto.
    + intros D P. destruct (Go.DecodeString _) as [bs|]; [|discriminate].
      destruct (Go.ParseInt _ 16) as [v|e] eqn:Q.
      * apply ParseInt_hex in Q. congruence.
      * apply ParseInt_Err in Q as [k ->]. eauto.
    + intros bs v -> -> N.
      destruct bs as [|b0 [|b1 [|b2 [|b3 [|b4 r]]]]]; try reflexivity.
      * now contradiction N.
      * now destruct (_ =? 16).
  - intros r H.
    assert (L : Go.len (Go.Split addr ":") = 2).
    { unfold parseAddress in H.
      destruct (Z.eqb_spec (Go.len (Go.Split addr ":")) 2);
        [assumption | discriminate]. }
    rewrite (parseAddress_two addr L) in H. split; [exact L|].
    destruct (Go.DecodeString _) as [bs|] eqn:D; [|discriminate].
    destruct (Go.ParseInt _ 16) as [v|] eqn:P; [|discriminate].
    split; [eapply DecodeString_OK_hex, D|].
    split; [|eapply ParseInt_hex, P].
    exists bs. split; [reflexivity|].
    destruct bs as [|b0 [|b1 [|b2 [|b3 [|b4 r']]]]]; try reflexivity;
      try (destruct (_ =? 16); discriminate).
  - intros a b p k n.
    repeat (apply NoDup_cons; split; [rewrite list_elem_of_In; simpl; intuition discriminate|]).
    apply NoDup_nil. exact I.
  - intros os file st lines O.
    pose proof (getTCPConnections_core os file st) as G. now rewrite O in G.
  - intros line H. unfold decodeLine.
    destruct (Z.ltb_spec (Go.len (Go.Fields line)) 10); [reflexivity|].
    destruct H as [H|[H|H]]; [lia| |].
    + destruct (parseAddress (nth 1 _ _)) as [[]|]; [discriminate|reflexivity].
    + destruct (parseAddress (nth 1 _ _)) as [[]|]; [|reflexivity].
      destruct (parseAddress (nth 2 _ _)) as [[]|]; [discriminate|reflexivity].
Qed.

Lemma parseAddress_malformed_witness :
  parseAddress "0100007F" = Err (ErrorString "invalid address format: 0100007F")
  /\ (exists b, isHexDigit b = false
                /\ parseAddress "0100007G:0016" = Err (HexInvalidByteError b))
  /\ (exists k, parseAddress "0100007F:001G" = Err (NumError "ParseInt" "001G" k))
  /\ decodeLine "   3: 0500000A:0016 0900000A:D431 01" = None.
Proof.
  split; [|split; [|split]].
  - apply (proj1 (parseAddress_malformed "0100007F")). vm_compute. discriminate.
  - apply (proj2 (parseAddress_malformed "0100007G:0016")); reflexivity.
  - apply (proj2 (parseAddress_malformed "0100007F:001G")); reflexivity.
  - apply (proj2 (parseAddress_malformed "")). left. vm_compute. reflexivity.
Defined.

(** ** Ports *)

(** The decimal text of a number reads back as that number. *)
Lemma decimalValue_FormatInt v : Go.decimalValue (Go.FormatInt v) = Some v.
Proof.
  unfold Go.decimalValue, Go.FormatInt.
  rewrite NilZero.isi.
  - simpl. now rewrite DecimalZ.of_to.
  - destruct v; simpl; try discriminate.
    intros [= H]. now apply DecimalPos.Unsigned.to_uint_nonnil in H.
  - destruct v; simpl; try discriminate.
    intros [= H]. now apply DecimalPos.Unsigned.to_uint_nonnil in H.
Qed.



Lemma isHexDigit_no_sign c :
  isHexDigit c = true -> Ascii.eqb c "+" = false /\ Ascii.eqb c "-" = false.
Proof.
  pose (chk := fun c : ascii =>
    implb (isHexDigit c) (negb (Ascii.eqb c "+") && negb (Ascii.eqb c "-"))).
  assert (H : chk c = true) by (apply forall_bytes; vm_compute; reflexivity).
  unfold chk in H. intros Hc. rewrite Hc in H. simpl in H.
  apply andb_true_iff in H as [H1 H2].
  now apply negb_true_iff in H1, H2.
Qed.








(** ** The cache the program builds *)

(** C10. Every entry of a map returned by [getNetworkInterfaces] has as key
    the dotted-decimal text of an IPv4 address that is not a loopback
    address, and as value the name of an interface of the enumeration that
    is up, is not a loopback interface and holds that address; a key has one
    value.  Hence [127.0.0.1] is not a key, in no state that the program
    reaches does the cache hold an entry for it, and in every such state
    [getInterfaceForIP] answers [lo] for [127.0.0.1] unless the cache is
    still nil and its initialisation fails. *)
Theorem getNetworkInterfaces_entries os st m st1 :
  getNetworkInterfaces os st = (OK m, st1) ->
  (exists ifs,
     Interfaces os (enumerations st) = OK ifs
     /\ forall k v, m !! k = Some v -> cacheEntry ifs k v)
  /\ (forall k v1 v2, m !! k = Some v1 -> m !! k = Some v2 -> v1 = v2)
  /\ m !! "127.0.0.1" = None
  /\ (forall s, reachable os s ->
        forall c, interfaceCache s = Some c -> c !! "127.0.0.1" = None)
  /\ (forall s, reachable os s ->
        fst (getInterfaceForIP os "127.0.0.1" s) = "lo"
        \/ (interfaceCache s = None
            /\ exists e, Interfaces os (enumerations s) = Err e)).
Proof.
  intros G.
  pose proof (getNetworkInterfaces_spec os st) as (_ & _ & _ & S).
  rewrite G in S. simpl in S.
  destruct (Interfaces os (enumerations st)) as [ifs|e]; [|discriminate].
  destruct S as (m' & [= <-] & E).
  split; [exists ifs; auto|]. split; [congruence|].
  split; [eapply entriesOf_no_loopback, E|].
  split; [intros s R; apply (reachable_noLoopbackKey os s R)|].
  intros s R. apply reachable_noLoopbackKey in R.
  destruct (interfaceCache s) as [c|] eqn:C.
  - left. apply loopback_resolves. rewrite C. now apply R.
  - destruct (Interfaces os (enumerations s)) as [ifs'|e'] eqn:I.
    + left. apply loopback_resolves. now rewrite C, I.
    + right. eauto.
Qed.

Lemma getNetworkInterfaces_entries_witness :
  exists m,
    fst (getNetworkInterfaces exampleOS initialState) = OK m
    /\ m !! "10.0.0.5" = Some "eth0"
    /\ m !! "10.0.0.6" = Some "eth0"
    /\ m !! "10.0.0.1" = Some "bond0"
    /\ m !! "127.0.0.1" = None.
Proof.
  destruct (getNetworkInterfaces exampleOS initialState) as [[m|e] st1] eqn:G;
    [|vm_compute in G; discriminate].
  exists m. split; [reflexivity|].
  pose proof (getNetworkInterfaces_entries exampleOS initialState m st1 G)
    as (_ & _ & N & _).
  vm_compute in G. injection G as <- _.
  split; [vm_compute; reflexivity|].
  split; [vm_compute; reflexivity|].
  split; [vm_compute; reflexivity | exact N].
Defined.


(** ** The cache as a list of bindings *)

Lemma mapAddr_addrEntry name m addr :
  mapAddr name m addr
  = match addrEntry name addr with
    | Some (k, v) => <[k := v]> m
    | None => m
    end.
Proof.
  unfold mapAddr, addrEntry.
  destruct addr as [ip mask|ip zone|]; simpl; try reflexivity;
    destruct ip as [|b r]; try reflexivity;
    destruct (_ && _); reflexivity.
Qed.

Lemma fold_mapAddr_insertions name addrs : forall m,
  fold_left (mapAddr name) addrs m
  = fold_left insertBinding (omap (addrEntry name) addrs) m.
Proof.
  induction addrs as [|addr addrs IH]; intros m; [reflexivity|].
  cbn [fold_left omap list_omap]. rewrite IH, mapAddr_addrEntry.
  destruct (addrEntry name addr) as [[k v]|]; reflexivity.
Qed.

(** The map and the log [mapInterfaces] gives do not depend on each other:
    the map is the insertion of the enumeration's entries in order. *)
Lemma mapInterfaces_insertions ifs : forall m st,
  mapInterfaces ifs m st
  = (fold_left insertBinding (cacheInsertions ifs) m,
     {| interfaceCache := interfaceCache st; enumerations := enumerations st;
        opened := opened st;
        logged := logged st ++ omap addrsWarning ifs |}).
Proof.
  induction ifs as [|iface rest IH]; intros m st.
  - simpl. rewrite app_nil_r. now destruct st.
  - cbn [mapInterfaces cacheInsertions flat_map omap list_omap].
    unfold interfaceEntries, addrsWarning.
    destruct (_ || _).
    + rewrite IH. reflexivity.
    + destruct (Addrs iface) as [addrs|e].
      * rewrite IH, fold_left_app, fold_mapAddr_insertions. reflexivity.
      * unfold bind, logPrintf. rewrite IH. simpl.
        now rewrite <- app_assoc.
Qed.

Lemma assoc_app k l1 l2 :
  assoc k (l1 ++ l2)
  = match assoc k l1 with Some v => Some v | None => assoc k l2 end.
Proof.
  induction l1 as [|[k' v'] l1 IH]; simpl; [reflexivity|].
  destruct (String.eqb k k'); [reflexivity | exact IH].
Qed.

Lemma fold_insert_lookup l : forall m k,
  fold_left insertBinding l m !! k
  = match lastBinding k l with Some v => Some v | None => m !! k end.
Proof.
  unfold lastBinding.
  induction l as [|[k' v'] l IH]; intros m k; [reflexivity|].
  cbn [fold_left rev]. rewrite IH, assoc_app. simpl.
  destruct (assoc k (rev l)); [reflexivity|].
  unfold insertBinding. simpl.
  destruct (String.eqb_spec k k') as [->|N].
  - now rewrite lookup_insert_eq.
  - rewrite lookup_insert_ne by congruence. reflexivity.
Qed.

(** [getNetworkInterfaces] in one equation. *)
Lemma getNetworkInterfaces_eq os st :
  getNetworkInterfaces os st
  = match Interfaces os (enumerations st) with
    | Err e =>
        (Err e,
         {| interfaceCache := interfaceCache st;
            enumerations := S (enumerations st);
            opened := opened st; logged := logged st |})
    | OK ifs =>
        (OK (fold_left insertBinding (cacheInsertions ifs) ∅),
         {| interfaceCache := interfaceCache st;
            enumerations := S (enumerations st);
            opened := opened st;
            logged := logged st ++ omap addrsWarning ifs |})
    end.
Proof.
  unfold getNetworkInterfaces, bind, netInterfaces, ret.
  destruct (Interfaces os (enumerations st)) as [ifs|e]; [|reflexivity].
  now rewrite mapInterfaces_insertions.
Qed.

Lemma addrEntry_Some name addr k v :
  addrEntry name addr = Some (k, v) <->
  exists ip a b c d,
    addrIP addr = Some ip /\ Go.To4 ip = Some [a; b; c; d]
    /\ Go.byteVal a <> 127 /\ k = Go.dotted a b c d /\ v = name.
Proof.
  unfold addrEntry. split.
  - destruct (addrIP addr) as [[|x r]|] eqn:A; try discriminate.
    destruct (bool_decide _ && _) eqn:C; [|discriminate].
    apply andb_true_iff in C as [C1 C2].
    apply bool_decide_eq_true in C1. apply negb_true_iff in C2.
    destruct (Go.To4 (x :: r)) as [l|] eqn:T; [|congruence].
    destruct (To4_four _ _ T) as (a & b & c & d & ->).
    unfold Go.IsLoopback in C2. rewrite T in C2. apply Z.eqb_neq in C2.
    unfold Go.IPString. rewrite T. intros [= <- <-].
    exists (x :: r), a, b, c, d. auto.
  - intros (ip & a & b & c & d & -> & T & N & -> & ->).
    destruct ip as [|x r]; [discriminate T|].
    unfold Go.IsLoopback, Go.IPString. rewrite T.
    destruct (Z.eqb_spec (Go.byteVal a) 127); [contradiction|].
    rewrite bool_decide_eq_true_2 by discriminate. reflexivity.
Qed.

(** The bindings of an enumeration are the entries [cacheEntry] names. *)
Lemma cacheInsertions_cacheEntry ifs k v :
  In (k, v) (cacheInsertions ifs) <-> cacheEntry ifs k v.
Proof.
  unfold cacheInsertions, cacheEntry. rewrite in_flat_map. split.
  - intros (iface & Hin & H). unfold interfaceEntries in H.
    destruct (Z.eqb_spec (Z.land (Flags iface) FlagUp) 0) as [|Hup];
      [contradiction|].
    destruct (Z.eqb_spec (Z.land (Flags iface) FlagLoopback) 0) as [Hlo|];
      [|contradiction].
    simpl in H. destruct (Addrs iface) as [addrs|e] eqn:A; [|contradiction].
    apply list_elem_of_In, list_elem_of_omap in H as (addr & Ha & E).
    apply list_elem_of_In in Ha.
    apply addrEntry_Some in E as (ip & a & b & c & d & E1 & E2 & E3 & E4 & E5).
    exists iface, addrs, addr, ip, a, b, c, d. repeat split; auto.
  - intros (iface & addrs & addr & ip & a & b & c & d & H).
    destruct H as (Hin & Hup & Hlo & Hn & A & Ha & E1 & E2 & E3 & E4).
    exists iface. split; [exact Hin|]. unfold interfaceEntries.
    destruct (Z.eqb_spec (Z.land (Flags iface) FlagUp) 0); [contradiction|].
    rewrite Hlo, A. simpl.
    apply list_elem_of_In, list_elem_of_omap. exists addr.
    split; [now apply list_elem_of_In|].
    apply addrEntry_Some. exists ip, a, b, c, d. auto.
Qed.

Lemma assoc_Some k v l : assoc k l = Some v -> In (k, v) l.
Proof.
  induction l as [|[k' v'] l IH]; simpl; [discriminate|].
  destruct (String.eqb_spec k k') as [->|N].
  - intros [= ->]. now left.
  - intros H. right. auto.
Qed.

Lemma assoc_None k l : assoc k l = None -> forall v, ~ In (k, v) l.
Proof.
  induction l as [|[k' v'] l IH]; simpl; [tauto|].
  destruct (String.eqb_spec k k') as [->|N]; [discriminate|].
  intros H v [[= <- <-]|Hin]; [congruence | eapply IH; eauto].
Qed.

Lemma lastBinding_Some k v l : lastBinding k l = Some v -> In (k, v) l.
Proof.
  unfold lastBinding. intros H. apply assoc_Some in H.
  now apply in_rev in H.
Qed.

Lemma lastBinding_None k l : lastBinding k l = None -> forall v, ~ In (k, v) l.
Proof.
  unfold lastBinding. intros H v Hin.
  apply (assoc_None _ _ H v). now apply in_rev in Hin.
Qed.

Lemma lastBinding_app k l1 l2 :
  lastBinding k (l1 ++ l2)
  = match lastBinding k l2 with
    | Some v => Some v
    | None => lastBinding k l1
    end.
Proof. unfold lastBinding. now rewrite rev_app_distr, assoc_app. Qed.

Lemma lastBinding_same k v l :
  In (k, v) l -> (forall v', In (k, v') l -> v' = v) ->
  lastBinding k l = Some v.
Proof.
  intros Hin Hall. destruct (lastBinding k l) as [v'|] eqn:L.
  - apply lastBinding_Some in L. f_equal. auto.
  - exfalso. eapply lastBinding_None; eauto.
Qed.

Lemma cacheInsertions_app l1 l2 :
  cacheInsertions (l1 ++ l2) = cacheInsertions l1 ++ cacheInsertions l2.
Proof. unfold cacheInsertions. apply flat_map_app. Qed.

(** X1. Where the enumeration succeeds, [getNetworkInterfaces] succeeds, and
    its map holds a key exactly for the dotted texts of the non-loopback IPv4
    addresses of the interfaces that are up, are no loopback interfaces and
    give their addresses.  A key that one interface holds and no interface
    enumerated after it maps to that interface: where several interfaces
    hold an address, the last one wins. *)
Theorem getNetworkInterfaces_complete os st ifs :
  Interfaces os (enumerations st) = OK ifs ->
  exists m,
    fst (getNetworkInterfaces os st) = OK m
    /\ (forall k, is_Some (m !! k) <-> exists v, cacheEntry ifs k v)
    /\ (forall before iface after k,
          ifs = before ++ iface :: after ->
          cacheEntry [iface] k (Name iface) ->
          (forall v, ~ cacheEntry after k v) ->
          m !! k = Some (Name iface)).
Proof.
  intros I. rewrite getNetworkInterfaces_eq, I. eexists. split; [reflexivity|].
  split.
  - intros k. rewrite fold_insert_lookup, lookup_empty. split.
    + intros [v H]. destruct (lastBinding k _) as [v'|] eqn:L; [|discriminate].
      exists v'. now apply cacheInsertions_cacheEntry, lastBinding_Some.
    + intros [v H]. apply cacheInsertions_cacheEntry in H.
      destruct (lastBinding k _) as [v'|] eqn:L; [eauto|].
      exfalso. eapply lastBinding_None; eauto.
  - intros before iface after k -> E N.
    rewrite fold_insert_lookup, lookup_empty.
    change (iface :: after) with ([iface] ++ after).
    rewrite !cacheInsertions_app, !lastBinding_app.
    destruct (lastBinding k (cacheInsertions after)) as [v|] eqn:L.
    { apply lastBinding_Some, cacheInsertions_cacheEntry in L.
      now destruct (N v). }
    rewrite (lastBinding_same k (Name iface)); [reflexivity| |].
    + now apply cacheInsertions_cacheEntry.
    + intros v' H. apply cacheInsertions_cacheEntry in H.
      destruct H as (i & ? & ? & ? & ? & ? & ? & ? & [<-|[]] & _ & _ & Hn & _).
      now symmetry.
Qed.

Lemma getNetworkInterfaces_complete_witness :
  exists m,
    fst (getNetworkInterfaces exampleOS initialState) = OK m
    /\ (forall k, is_Some (m !! k) <-> exists v, cacheEntry [lo; bond0; eth0] k v)
    /\ (forall before iface after k,
          [lo; bond0; eth0] = before ++ iface :: after ->
          cacheEntry [iface] k (Name iface) ->
          (forall v, ~ cacheEntry after k v) ->
          m !! k = Some (Name iface)).
Proof.
  apply (getNetworkInterfaces_complete exampleOS initialState [lo; bond0; eth0]).
  reflexivity.
Defined.

(** X2. [getNetworkInterfaces] fails exactly when the enumeration fails.  It
    never writes the cache and opens no file; it makes one enumeration and
    logs one warning for each interface that is up, is no loopback interface
    and fails to give its addresses, in the order of the enumeration, and
    nothing else. *)
Theorem getNetworkInterfaces_warnings os st :
  isOK (fst (getNetworkInterfaces os st)) = isOK (Interfaces os (enumerations st))
  /\ interfaceCache (snd (getNetworkInterfaces os st)) = interfaceCache st
  /\ opened (snd (getNetworkInterfaces os st)) = opened st
  /\ enumerations (snd (getNetworkInterfaces os st)) = S (enumerations st)
  /\ logged (snd (getNetworkInterfaces os st))
     = logged st ++ match Interfaces os (enumerations st) with
                    | OK ifs => omap addrsWarning ifs
                    | Err _ => []
                    end.
Proof.
  rewrite getNetworkInterfaces_eq.
  destruct (Interfaces os (enumerations st)); simpl; rewrite ?app_nil_r; auto.
Qed.

(** ** A stable configuration *)

Lemma builtCache_lookup ifs k :
  fold_left insertBinding (cacheInsertions ifs) ∅ !! k
  = lastBinding k (cacheInsertions ifs).
Proof.
  rewrite fold_insert_lookup, lookup_empty.
  now destruct (lastBinding k _).
Qed.

(** [getInterfaceForIP] as the initialisation of a nil cache followed by
    [resolveWith]. *)
Lemma getInterfaceForIP_unfold os ip st :
  getInterfaceForIP os ip st
  = match interfaceCache st with
    | Some m => resolveWith os ip m st
    | None =>
        match Interfaces os (enumerations st) with
        | Err e =>
            ("unknown",
             {| interfaceCache := None; enumerations := S (enumerations st);
                opened := opened st;
                logged := logged st ++ [ErrGettingInterfaces e] |})
        | OK ifs =>
            let m := fold_left insertBinding (cacheInsertions ifs) ∅ in
            resolveWith os ip m
              {| interfaceCache := Some m; enumerations := S (enumerations st);
                 opened := opened st;
                 logged := logged st ++ omap addrsWarning ifs |}
        end
    end.
Proof.
  unfold getInterfaceForIP, bind at 1, getInterfaceCache.
  destruct (interfaceCache st) as [m|]; [reflexivity|].
  unfold bind at 1 2. rewrite getNetworkInterfaces_eq.
  destruct (Interfaces os (enumerations st)); reflexivity.
Qed.

Lemma resolveWith_stable os ifs ip s :
  (forall k, Interfaces os k = OK ifs) ->
  let b := fold_left insertBinding (cacheInsertions ifs) ∅ in
  interfaceCache s = Some b ->
  fst (resolveWith os ip b s) = stableAnswer (OK ifs) ip
  /\ interfaceCache (snd (resolveWith os ip b s)) = Some b
  /\ opened (snd (resolveWith os ip b s)) = opened s.
Proof.
  intros S b C. subst b. unfold resolveWith, stableAnswer.
  rewrite builtCache_lookup.
  destruct (lastBinding ip (cacheInsertions ifs)) as [v|] eqn:L; [auto|].
  destruct (String.eqb ip "127.0.0.1"); [auto|].
  destruct (String.eqb ip "0.0.0.0").
  - rewrite getPrimaryInterface_spec, S. simpl. auto.
  - unfold bind. rewrite getNetworkInterfaces_eq, S.
    unfold setInterfaceCache, ret. rewrite builtCache_lookup, L. simpl. auto.
Qed.

(** While every enumeration gives the same answer, a resolution from a cache
    that is nil or built from that answer gives [stableAnswer] and leaves the
    cache built from that answer. *)
Lemma getInterfaceForIP_stable os r ip st :
  (forall k, Interfaces os k = r) -> cacheFresh r st ->
  fst (getInterfaceForIP os ip st) = stableAnswer r ip
  /\ interfaceCache (snd (getInterfaceForIP os ip st)) = builtCache r
  /\ opened (snd (getInterfaceForIP os ip st)) = opened st.
Proof.
  intros S F. rewrite getInterfaceForIP_unfold.
  destruct (interfaceCache st) as [m|] eqn:C.
  - unfold cacheFresh in F. rewrite C in F. destruct F as [F|F]; [discriminate|].
    destruct r as [ifs|e]; [|discriminate]. unfold builtCache in F |- *.
    assert (m = fold_left insertBinding (cacheInsertions ifs) ∅) as ->
      by congruence.
    now apply resolveWith_stable.
  - rewrite S. destruct r as [ifs|e]; [|simpl; auto].
    cbv zeta.
    match goal with |- context [resolveWith os ip ?b ?s] =>
      destruct (resolveWith_stable os ifs ip s S eq_refl) as (P1 & P2 & P3) end.
    auto.
Qed.

Lemma getInterfaceForIP_hit os ip st m v :
  interfaceCache st = Some m -> m !! ip = Some v ->
  getInterfaceForIP os ip st = (v, st).
Proof.
  intros C L. rewrite getInterfaceForIP_unfold, C.
  unfold resolveWith. now rewrite L.
Qed.

(** X3. While the system answers every enumeration alike, resolving an
    address a second time gives the answer of the first time, from whatever
    state the first resolution starts (a stale cache included). *)
Theorem getInterfaceForIP_idempotent os r ip st :
  (forall k, Interfaces os k = r) ->
  fst (getInterfaceForIP os ip (snd (getInterfaceForIP os ip st)))
  = fst (getInterfaceForIP os ip st).
Proof.
  intros S.
  assert (Fresh : forall s, cacheFresh r s ->
    fst (getInterfaceForIP os ip (snd (getInterfaceForIP os ip s)))
    = fst (getInterfaceForIP os ip s)).
  { intros s F.
    destruct (getInterfaceForIP_stable os r ip s S F) as (A & B & _).
    destruct (getInterfaceForIP_stable os r ip
                (snd (getInterfaceForIP os ip s)) S) as (A' & _).
    { right. exact B. }
    congruence. }
  destruct (interfaceCache st) as [m|] eqn:C; [|apply Fresh; now left].
  destruct (m !! ip) as [v|] eqn:L.
  { rewrite (getInterfaceForIP_hit os ip st m v C L). simpl.
    now rewrite (getInterfaceForIP_hit os ip st m v C L). }
  rewrite (getInterfaceForIP_unfold os ip st), C. unfold resolveWith.
  rewrite L.
  destruct (String.eqb ip "127.0.0.1") eqn:N1.
  { unfold ret. simpl. rewrite getInterfaceForIP_unfold, C.
    unfold resolveWith. now rewrite L, N1. }
  destruct (String.eqb ip "0.0.0.0") eqn:N2.
  { rewrite getPrimaryInterface_spec. simpl.
    rewrite getInterfaceForIP_unfold. simpl. rewrite C.
    unfold resolveWith. rewrite L, N1, N2, getPrimaryInterface_spec.
    simpl. now rewrite !S. }
  unfold bind. rewrite getNetworkInterfaces_eq, S.
  destruct r as [ifs|e].
  - unfold setInterfaceCache, ret.
    match goal with
    | |- context [_ {| interfaceCache := Some ?b; enumerations := ?a1;
                       opened := ?a2; logged := ?a3 |}] =>
        set (s1 := {| interfaceCache := Some b; enumerations := a1;
                      opened := a2; logged := a3 |})
    end.
    destruct (getInterfaceForIP_stable os (OK ifs) ip s1 S) as (A & _);
      [right; reflexivity|].
    unfold stableAnswer in A. rewrite <- builtCache_lookup in A.
    destruct (fold_left insertBinding (cacheInsertions ifs) ∅ !! ip)
      as [v|] eqn:L'; cbn [fst snd]; rewrite A; [reflexivity|].
    now rewrite N1, N2.
  - unfold setInterfaceCache, logPrintf, ret. simpl.
    match goal with |- context [getInterfaceForIP os ip ?s] =>
      destruct (getInterfaceForIP_stable os (Err e) ip s S) as (A & _);
        [left; reflexivity|]
    end.
    rewrite A. reflexivity.
Qed.

Lemma getInterfaceForIP_idempotent_witness :
  fst (getInterfaceForIP exampleOS "0.0.0.0"
         (snd (getInterfaceForIP exampleOS "0.0.0.0" loopbackCached)))
  = fst (getInterfaceForIP exampleOS "0.0.0.0" loopbackCached).
Proof.
  apply (getInterfaceForIP_idempotent exampleOS (OK [lo; bond0; eth0])).
  reflexivity.
Defined.

(** ** The reader, line by line *)

Lemma withLog_nil st : withLog st [] = st.
Proof. unfold withLog. rewrite app_nil_r. now destruct st. Qed.


(** A line is skipped, with at most one log entry, or decoded, with one
    resolution of its source address. *)
Lemma scanLine_eq os conns line st :
  scanLine os conns line st
  = match decodeLine line with
    | Some t =>
        (conns ++ [recordOf t (fst (getInterfaceForIP os t.1.1.1.1 st))],
         snd (getInterfaceForIP os t.1.1.1.1 st))
    | None => (conns, withLog st (skipLog line))
    end.
Proof.
  unfold scanLine, decodeLine, skipLog.
  destruct (Go.len (Go.Fields line) <? 10); [now rewrite withLog_nil|].
  destruct (parseAddress (nth 1 _ _)) as [[sa sp]|e]; [|reflexivity].
  destruct (parseAddress (nth 2 _ _)) as [[da dp]|e]; [|reflexivity].
  unfold bind, ret. simpl.
  now destruct (getInterfaceForIP os sa st).
Qed.

Lemma Collect_eq os st :
  Collect os st
  = match Open os (List.length (opened st)) "/proc/net/tcp" with
    | Err e =>
        ([], {| interfaceCache := interfaceCache st;
                enumerations := enumerations st;
                opened := opened st ++ ["/proc/net/tcp"];
                logged := logged st ++ [ErrGettingTCP e] |})
    | OK lines =>
        let r := scanLines os (tail lines) []
                   {| interfaceCache := interfaceCache st;
                      enumerations := enumerations st;
                      opened := opened st ++ ["/proc/net/tcp"];
                      logged := logged st |} in
        (map connMetric (fst r), snd r)
    end.
Proof.
  unfold Collect, bind at 1, getTCPConnections, bind at 1, osOpen.
  destruct (Open os _ _) as [lines|e]; [|reflexivity].
  unfold bind at 1. cbv zeta.
  now destruct (scanLines os (tail lines) [] _).
Qed.









(** ** A refresh that fails *)

(** X7. When the refresh after a miss fails, [getInterfaceForIP] answers
    [unknown], logs the error and resets the cache to nil: an address the
    cache held before, answered until then without any enumeration, needs a
    new enumeration afterwards, and is [unknown] if that one fails too. *)
Theorem failed_refresh_empties_cache os st m ip ip' v e :
  interfaceCache st = Some m ->
  m !! ip = None ->
  String.eqb ip "127.0.0.1" = false ->
  String.eqb ip "0.0.0.0" = false ->
  m !! ip' = Some v ->
  Interfaces os (enumerations st) = Err e ->
  let st1 := snd (getInterfaceForIP os ip st) in
  getInterfaceForIP os ip' st = (v, st)
  /\ fst (getInterfaceForIP os ip st) = "unknown"
  /\ interfaceCache st1 = None
  /\ logged st1 = logged st ++ [ErrRefreshingInterfaces e]
  /\ (enumerations st1 < enumerations (snd (getInterfaceForIP os ip' st1)))%nat
  /\ (isOK (Interfaces os (S (enumerations st))) = false ->
      fst (getInterfaceForIP os ip' st1) = "unknown").
Proof.
  intros C L N1 N2 L' I st1.
  assert (E : getInterfaceForIP os ip st
              = ("unknown",
                 {| interfaceCache := None;
                    enumerations := S (enumerations st);
                    opened := opened st;
                    logged := logged st ++ [ErrRefreshingInterfaces e] |})).
  { rewrite getInterfaceForIP_unfold, C. unfold resolveWith.
    rewrite L, N1, N2. unfold bind. rewrite getNetworkInterfaces_eq, I.
    reflexivity. }
  subst st1. rewrite E. cbn [fst snd interfaceCache logged enumerations].
  split; [now apply (getInterfaceForIP_hit os ip' st m v)|].
  repeat split.
  - match goal with |- context [getInterfaceForIP os ip' ?s] =>
      destruct (getInterfaceForIP os ip' s) as [name st2] eqn:G
    end.
    apply getInterfaceForIP_cases in G as [_ G]. simpl in *.
    destruct G as [(_ & _ & _ & _ & G)|[(m0 & G & _)|(m0 & ifs & _ & _ & _ & G)]];
      [lia | discriminate |].
    destruct G as [(? & _ & _ & _ & G)|[(_ & _ & _ & _ & G)|
      [(_ & _ & _ & _ & G)|(_ & _ & _ & G & _)]]]; lia.
  - intros F. rewrite getInterfaceForIP_unfold. simpl.
    destruct (Interfaces os (S (enumerations st))); [discriminate|reflexivity].
Qed.

Lemma failed_refresh_empties_cache_witness :
  let st1 := snd (getInterfaceForIP brokenOS "10.0.0.7" loopbackCached) in
  getInterfaceForIP brokenOS "127.0.0.1" loopbackCached = ("eth0", loopbackCached)
  /\ fst (getInterfaceForIP brokenOS "10.0.0.7" loopbackCached) = "unknown"
  /\ interfaceCache st1 = None
  /\ logged st1
     = logged loopbackCached
       ++ [ErrRefreshingInterfaces (OSError "route" "netlinkrib")]
  /\ (enumerations st1
      < enumerations (snd (getInterfaceForIP brokenOS "127.0.0.1" st1)))%nat
  /\ (isOK (Interfaces brokenOS (S (enumerations loopbackCached))) = false ->
      fst (getInterfaceForIP brokenOS "127.0.0.1" st1) = "unknown").
Proof.
  apply (failed_refresh_empties_cache brokenOS loopbackCached
           {[ "127.0.0.1" := "eth0" ]} "10.0.0.7" "127.0.0.1" "eth0"
           (OSError "route" "netlinkrib")); reflexivity.
Defined.

(** ** Interface labels *)

Lemma builtCache_enumerated os n ifs :
  Interfaces os n = OK ifs ->
  valuesEnumerated os (fold_left insertBinding (cacheInsertions ifs) ∅).
Proof.
  intros I k v. rewrite builtCache_lookup. intros L.
  apply lastBinding_Some, cacheInsertions_cacheEntry in L.
  destruct L as (iface & ? & ? & ? & ? & ? & ? & ? & Hin & Hup & Hlo & Hn & _).
  exists n, ifs, iface. auto.
Qed.

Lemma find_upWithIPv4 (P : Interface -> bool) ifs iface :
  find (fun i => P i && upWithIPv4 i) ifs = Some iface ->
  In iface ifs
  /\ Z.land (Flags iface) FlagUp <> 0 /\ Z.land (Flags iface) FlagLoopback = 0.
Proof.
  intros F. apply find_some in F as [Hin H]. split; [exact Hin|].
  apply andb_true_iff in H as [_ H]. unfold upWithIPv4 in H.
  apply andb_true_iff in H as [H _]. apply andb_true_iff in H as [H1 H2].
  apply negb_true_iff, Z.eqb_neq in H1. apply Z.eqb_eq in H2. auto.
Qed.

Lemma primaryOf_label os n : interfaceLabel os (primaryOf (Interfaces os n)).
Proof.
  unfold primaryOf, ethernetFirst, nameOr.
  destruct (Interfaces os n) as [ifs|e] eqn:I; [|now left].
  destruct (find (fun i => ethernetNamed i && upWithIPv4 i) ifs) as [i|] eqn:F.
  { apply find_upWithIPv4 in F as (? & ? & ?).
    right; right. exists n, ifs, i. auto. }
  destruct (find upWithIPv4 ifs) as [i|] eqn:F'; [|now left].
  apply (find_upWithIPv4 (fun _ => true)) in F' as (? & ? & ?).
  right; right. exists n, ifs, i. auto.
Qed.

Lemma resolveWith_label os ip m st :
  valuesEnumerated os m ->
  interfaceLabel os (fst (resolveWith os ip m st))
  /\ (interfaceCache st = Some m ->
      cacheEnumerated os (snd (resolveWith os ip m st))).
Proof.
  intros V. unfold resolveWith.
  destruct (m !! ip) as [v|] eqn:L.
  { split; [right; right; eapply V, L|]. intros C m' C'. simpl in C'.
    assert (m' = m) as -> by congruence. exact V. }
  destruct (String.eqb ip "127.0.0.1").
  { split; [right; now left|]. intros C m' C'. simpl in C'.
    assert (m' = m) as -> by congruence. exact V. }
  destruct (String.eqb ip "0.0.0.0").
  { rewrite getPrimaryInterface_spec. split; [apply primaryOf_label|].
    intros C m' C'. simpl in C'.
    assert (m' = m) as -> by congruence. exact V. }
  unfold bind. rewrite getNetworkInterfaces_eq.
  destruct (Interfaces os (enumerations st)) as [ifs|e] eqn:I.
  - pose proof (builtCache_enumerated os _ ifs I) as B.
    unfold setInterfaceCache, ret.
    destruct (fold_left insertBinding (cacheInsertions ifs) ∅ !! ip)
      as [v|] eqn:L'; simpl.
    + split; [right; right; eapply B, L'|]. intros _ m' [= <-]. exact B.
    + split; [now left|]. intros _ m' [= <-]. exact B.
  - simpl. split; [now left|]. intros _ m' C'. discriminate.
Qed.

(** A resolution from a cache of enumerated interfaces answers with an
    interface label and keeps such a cache. *)
Lemma getInterfaceForIP_label os ip st :
  cacheEnumerated os st ->
  interfaceLabel os (fst (getInterfaceForIP os ip st))
  /\ cacheEnumerated os (snd (getInterfaceForIP os ip st)).
Proof.
  intros K. rewrite getInterfaceForIP_unfold.
  destruct (interfaceCache st) as [m|] eqn:C.
  - destruct (resolveWith_label os ip m st (K m C)) as [A B]. auto.
  - destruct (Interfaces os (enumerations st)) as [ifs|e] eqn:I.
    + cbv zeta.
      match goal with |- context [resolveWith os ip ?b ?s] =>
        destruct (resolveWith_label os ip b s
                    (builtCache_enumerated os _ ifs I)) as [A B]
      end.
      split; [exact A | now apply B].
    + simpl. split; [now left|]. intros m C'. discriminate.
Qed.

Lemma scanLines_label os lines : forall conns st,
  cacheEnumerated os st ->
  Forall (fun c => interfaceLabel os (sourceInterface c)) conns ->
  Forall (fun c => interfaceLabel os (sourceInterface c))
         (fst (scanLines os lines conns st))
  /\ cacheEnumerated os (snd (scanLines os lines conns st)).
Proof.
  induction lines as [|line rest IH]; intros conns st K F; [simpl; auto|].
  cbn [scanLines]. unfold bind. rewrite scanLine_eq.
  destruct (decodeLine line) as [[[[[sa sp] da] dp] s]|].
  - destruct (getInterfaceForIP_label os sa st K) as [A B].
    apply IH; [exact B|]. apply Forall_app. split; [exact F|].
    constructor; [exact A | constructor].
  - apply IH; [|exact F]. intros m C. apply (K m C).
Qed.

Lemma Collect_label os st :
  cacheEnumerated os st ->
  Forall (fun m => interfaceLabel os (nth 5 (labelValues m) EmptyString))
         (fst (Collect os st))
  /\ cacheEnumerated os (snd (Collect os st)).
Proof.
  intros K. rewrite Collect_eq.
  destruct (Open os _ _) as [lines|e].
  - cbv zeta. cbn [fst snd].
    match goal with |- context [scanLines os (tail lines) [] ?s] =>
      destruct (scanLines_label os (tail lines) [] s) as [A B];
        [intros m C; apply (K m C) | constructor |]
    end.
    split; [|exact B]. rewrite Forall_map. exact A.
  - simpl. split; [constructor|]. intros m C. apply (K m C).
Qed.

Lemma reachable_cacheEnumerated os st :
  reachable os st -> cacheEnumerated os st.
Proof.
  induction 1 as [|st R IH|st ip R IH].
  - intros m C. discriminate.
  - now apply Collect_label.
  - now apply getInterfaceForIP_label.
Qed.

(** X8. In every state the program reaches, the interface a resolution
    answers, and the interface label of every metric a pass emits, is
    [unknown], [lo], or the name of an interface that an enumeration gave as
    up and no loopback interface. *)
Theorem interface_labels os st :
  reachable os st ->
  (forall ip, interfaceLabel os (fst (getInterfaceForIP os ip st)))
  /\ Forall (fun m => interfaceLabel os (nth 5 (labelValues m) EmptyString))
            (fst (Collect os st)).
Proof.
  intros R. apply reachable_cacheEnumerated in R. split.
  - intros ip. now apply getInterfaceForIP_label.
  - now apply Collect_label.
Qed.

Lemma interface_labels_witness :
  (forall ip, interfaceLabel exampleOS
                (fst (getInterfaceForIP exampleOS ip cachedState)))
  /\ Forall (fun m => interfaceLabel exampleOS
                        (nth 5 (labelValues m) EmptyString))
            (fst (Collect exampleOS cachedState)).
Proof.
  apply (interface_labels exampleOS cachedState).
  unfold cachedState. apply reachResolve, reachInitial.
Defined.


(** ** What [parseAddress] accepts and returns *)

Lemma DecodeString_length s :
  (forall bs, Go.DecodeString s = OK bs ->
     String.length s = (2 * List.length bs)%nat)
  /\ (forall c bs, Go.DecodeString (String c s) = OK bs ->
        String.length (String c s) = (2 * List.length bs)%nat).
Proof.
  induction s as [|q r [IH1 IH2]].
  - split; [now intros bs [= <-]|].
    intros c bs. simpl. destruct (_ >? 15); discriminate.
  - split; [apply IH2|].
    intros c bs. cbn [Go.DecodeString].
    destruct (_ >? 15); [discriminate|].
    destruct (_ >? 15); [discriminate|].
    destruct (Go.DecodeString r) as [bs'|] eqn:D; [|discriminate].
    intros [= <-]. specialize (IH1 bs' eq_refl). simpl in *. lia.
Qed.

Lemma parseAddress_OK_inv addr a p :
  parseAddress addr = OK (a, p) ->
  exists b0 b1 b2 b3 v,
    Go.len (Go.Split addr ":") = 2
    /\ Go.DecodeString (ipText addr) = OK [b0; b1; b2; b3]
    /\ Go.ParseInt (portText addr) 16 = OK v
    /\ a = Go.dotted b3 b2 b1 b0 /\ p = Go.FormatInt v.
Proof.
  intros H.
  assert (L : Go.len (Go.Split addr ":") = 2).
  { unfold parseAddress in H.
    destruct (Z.eqb_spec (Go.len (Go.Split addr ":")) 2);
      [assumption | discriminate]. }
  rewrite (parseAddress_two addr L) in H.
  destruct (Go.DecodeString _) as [bs|]; [|discriminate].
  destruct (Go.ParseInt _ 16) as [v|]; [|discriminate].
  destruct bs as [|b0 [|b1 [|b2 [|b3 [|b4 r']]]]];
    try (destruct (_ =? 16); discriminate); try discriminate.
  injection H as <- <-. exists b0, b1, b2, b3, v. auto.
Qed.

(** X10. [parseAddress] accepts a field exactly when the field has one
    colon, the part before it is made of eight hexadecimal digits, and
    [strconv.ParseInt] accepts the part after it in base 16. *)
Theorem parseAddress_accepts addr :
  isOK (parseAddress addr) = true <->
  Go.len (Go.Split addr ":") = 2
  /\ String.length (ipText addr) = 8%nat
  /\ allChars isHexDigit (ipText addr) = true
  /\ isOK (Go.ParseInt (portText addr) 16) = true.
Proof.
  split.
  - destruct (parseAddress addr) as [[a p]|] eqn:H; [|discriminate].
    intros _.
    apply parseAddress_OK_inv in H as (b0 & b1 & b2 & b3 & v & L & D & P & _).
    split; [exact L|]. split.
    + now apply (proj1 (DecodeString_length _)) in D.
    + split; [eapply DecodeString_OK_hex, D | now rewrite P].
  - intros (L & L8 & A & P). rewrite (parseAddress_two addr L).
    destruct (DecodeString_eight _ L8 A) as (b0 & b1 & b2 & b3 & -> & _).
    now destruct (Go.ParseInt _ 16).
Qed.

Lemma parseAddress_accepts_witness :
  isOK (parseAddress "0100007F:0016") = true.
Proof.
  apply (proj2 (parseAddress_accepts "0100007F:0016")).
  repeat split; vm_compute; reflexivity.
Defined.

(** X11. The address [parseAddress] returns is the dotted-decimal text of
    the four decoded bytes in reversed order, and reads back as these four
    octets; the port reads back as the number parsed.  So two fields that
    give the same address and port hold the same bytes and the same port
    number: no two endpoints share their labels. *)
Theorem parseAddress_injective x y a p :
  parseAddress x = OK (a, p) ->
  parseAddress y = OK (a, p) ->
  (exists b0 b1 b2 b3 v,
     Go.DecodeString (ipText x) = OK [b0; b1; b2; b3]
     /\ Go.ParseInt (portText x) 16 = OK v
     /\ parseDotted a = Some [b3; b2; b1; b0]
     /\ Go.decimalValue p = Some v)
  /\ Go.DecodeString (ipText x) = Go.DecodeString (ipText y)
  /\ Go.ParseInt (portText x) 16 = Go.ParseInt (portText y) 16.
Proof.
  intros Hx Hy.
  apply parseAddress_OK_inv in Hx
    as (b0 & b1 & b2 & b3 & v & _ & D & P & -> & ->).
  apply parseAddress_OK_inv in Hy
    as (c0 & c1 & c2 & c3 & w & _ & D' & P' & E1 & E2).
  apply dotted_inj in E1 as (-> & -> & -> & ->).
  assert (v = w) as ->.
  { pose proof (decimalValue_FormatInt v) as V.
    rewrite E2, decimalValue_FormatInt in V. congruence. }
  split; [|split; congruence].
  exists c0, c1, c2, c3, w. repeat split; auto.
  - apply parseDotted_dotted.
  - apply decimalValue_FormatInt.
Qed.

Lemma parseAddress_injective_witness :
  (exists b0 b1 b2 b3 v,
     Go.DecodeString (ipText "0100007f:016") = OK [b0; b1; b2; b3]
     /\ Go.ParseInt (portText "0100007f:016") 16 = OK v
     /\ parseDotted "127.0.0.1" = Some [b3; b2; b1; b0]
     /\ Go.decimalValue "22" = Some v)
  /\ Go.DecodeString (ipText "0100007f:016")
     = Go.DecodeString (ipText "0100007F:+16")
  /\ Go.ParseInt (portText "0100007f:016") 16
     = Go.ParseInt (portText "0100007F:+16") 16.
Proof.
  apply (parseAddress_injective "0100007f:016" "0100007F:+16" "127.0.0.1" "22");
    reflexivity.
Defined.

(** ** The alphabet of the labels *)









(** ** Fields in the kernel's form *)

Lemma hex_digit_value c :
  isHexDigit c = true ->
  Go.digitVal (Go.byteVal c) = Some (Go.reverseHexTable c)
  /\ 0 <= Go.reverseHexTable c <= 15.
Proof.
  pose (chk := fun c : ascii =>
    implb (isHexDigit c)
      (match Go.digitVal (Go.byteVal c) with
       | Some d => d =? Go.reverseHexTable c
       | None => false
       end && (0 <=? Go.reverseHexTable c) && (Go.reverseHexTable c <=? 15))).
  assert (H : chk c = true) by (apply forall_bytes; vm_compute; reflexivity).
  unfold chk in H. intros Hc. rewrite Hc in H. simpl in H.
  apply andb_true_iff in H as [H H3]. apply andb_true_iff in H as [H1 H2].
  destruct (Go.digitVal _) as [d|]; [|discriminate].
  apply Z.eqb_eq in H1. subst. split; [reflexivity | lia].
Qed.

(** Where no overflow can occur, [ParseUint] reads the positional value. *)
Lemma parseUintLoop_value s : forall n,
  allChars isHexDigit s = true -> 0 <= n ->
  (n + 1) * 16 ^ Z.of_nat (String.length s) <= 2 ^ 64 ->
  Go.parseUintLoop 16 s n = (hexValueFrom n s, None)
  /\ n * 16 ^ Z.of_nat (String.length s) <= hexValueFrom n s
     < (n + 1) * 16 ^ Z.of_nat (String.length s).
Proof.
  induction s as [|c r IH]; intros n A Hn B.
  - simpl. split; [reflexivity | lia].
  - cbn [allChars] in A. apply andb_true_iff in A as [Ac Ar].
    destruct (hex_digit_value c Ac) as [D R].
    cbn [Go.parseUintLoop hexValueFrom String.length] in B |- *. rewrite D.
    rewrite Nat2Z.inj_succ, Z.pow_succ_r in B |- * by lia.
    assert (P : 0 < 16 ^ Z.of_nat (String.length r))
      by (apply Z.pow_pos_nonneg; lia).
    destruct (Z.geb_spec (Go.reverseHexTable c) 16); [lia|].
    change (Go.maxUint64 / 16 + 1) with (2 ^ 60).
    destruct (Z.geb_spec n (2 ^ 60)); [nia|].
    rewrite (Z.mod_small (n * 16)) by lia.
    rewrite (Z.mod_small (n * 16 + _)) by lia.
    change Go.maxUint64 with (2 ^ 64 - 1).
    destruct (Z.ltb_spec (n * 16 + Go.reverseHexTable c) (n * 16)); [lia|].
    destruct (Z.gtb_spec (n * 16 + Go.reverseHexTable c) (2 ^ 64 - 1)); [lia|].
    cbn [orb].
    destruct (IH (n * 16 + Go.reverseHexTable c) Ar) as [I1 I2]; [lia|nia|].
    split; [exact I1 | nia].
Qed.

(** [ParseInt] accepts one to fifteen hexadecimal digits and reads their
    positional value. *)
Lemma ParseInt_hex_digits port :
  allChars isHexDigit port = true ->
  (1 <= String.length port <= 15)%nat ->
  Go.ParseInt port 16 = OK (hexValue port)
  /\ 0 <= hexValue port < 16 ^ Z.of_nat (String.length port).
Proof.
  intros A L. destruct port as [|c0 tl]; [simpl in L; lia|].
  assert (P : 16 ^ Z.of_nat (String.length (String c0 tl)) <= 16 ^ 15)
    by (apply Z.pow_le_mono_r; lia).
  destruct (parseUintLoop_value (String c0 tl) 0 A) as [V B]; [lia|lia|].
  fold (hexValue (String c0 tl)) in V, B.
  split; [|lia].
  unfold Go.ParseInt.
  pose proof A as A'. cbn [allChars] in A'.
  apply andb_true_iff in A' as [A0 _].
  destruct (isHexDigit_no_sign c0 A0) as [S1 S2]. rewrite S1, S2.
  unfold Go.ParseUint. rewrite V.
  change (Z.shiftl 1 63) with (2 ^ 63). cbn [negb andb].
  destruct (Z.geb_spec (hexValue (String c0 tl)) (2 ^ 63)); [lia|].
  reflexivity.
Qed.

(** X13. A field of eight hexadecimal digits, a colon and one to fifteen
    hexadecimal digits always decodes: the port is the decimal text of the
    positional value of the digits, which lies below [16 ^ length]; so a port
    of four digits, as the kernel writes it, lies in the range 0 to 65535. *)
Theorem parseAddress_kernel_format hexip port :
  String.length hexip = 8%nat ->
  allChars isHexDigit hexip = true ->
  (1 <= String.length port <= 15)%nat ->
  allChars isHexDigit port = true ->
  exists b0 b1 b2 b3,
    Go.DecodeString hexip = OK [b0; b1; b2; b3]
    /\ parseAddress (hexip +:+ ":" +:+ port)
       = OK (Go.dotted b3 b2 b1 b0, Go.FormatInt (hexValue port))
    /\ 0 <= hexValue port < 16 ^ Z.of_nat (String.length port).
Proof.
  intros L8 A L P.
  destruct (DecodeString_eight hexip L8 A) as (b0 & b1 & b2 & b3 & D & _).
  destruct (ParseInt_hex_digits port P L) as [V B].
  exists b0, b1, b2, b3. split; [exact D|]. split; [|exact B].
  rewrite parseAddress_parts, D, V; [reflexivity| |].
  - eapply allChars_hasChar; [exact A | reflexivity].
  - eapply allChars_hasChar; [exact P | reflexivity].
Qed.

Lemma parseAddress_kernel_format_witness :
  exists b0 b1 b2 b3,
    Go.DecodeString "0500000A" = OK [b0; b1; b2; b3]
    /\ parseAddress ("0500000A" +:+ ":" +:+ "D431")
       = OK (Go.dotted b3 b2 b1 b0, Go.FormatInt (hexValue "D431"))
    /\ 0 <= hexValue "D431" < 16 ^ Z.of_nat (String.length "D431").
Proof.
  apply (parseAddress_kernel_format "0500000A" "D431"); try reflexivity.
  simpl. lia.
Defined.

(** ** Decoding what the kernel encodes *)

Lemma encode_byte b :
  exists p q,
    encodeHexUpper [b] = String p (String q EmptyString)
    /\ isHexDigit p = true /\ isHexDigit q = true
    /\ Go.byteOf (Z.lor (Z.shiftl (Go.reverseHexTable p) 4)
                        (Go.reverseHexTable q)) = b.
Proof.
  pose (p := hexDigitUpper (Z.shiftr (Go.byteVal b) 4)).
  pose (q := hexDigitUpper (Z.land (Go.byteVal b) 15)).
  pose (chk := fun b : ascii =>
    let p := hexDigitUpper (Z.shiftr (Go.byteVal b) 4) in
    let q := hexDigitUpper (Z.land (Go.byteVal b) 15) in
    isHexDigit p && isHexDigit q
    && Ascii.eqb (Go.byteOf (Z.lor (Z.shiftl (Go.reverseHexTable p) 4)
                                   (Go.reverseHexTable q))) b).
  assert (H : chk b = true) by (apply forall_bytes; vm_compute; reflexivity).
  unfold chk in H. cbv zeta in H. fold p q in H.
  apply andb_true_iff in H as [H H3]. apply andb_true_iff in H as [H1 H2].
  apply Ascii.eqb_eq in H3.
  exists p, q. repeat split; assumption.
Qed.

Lemma DecodeString_encode bs :
  Go.DecodeString (encodeHexUpper bs) = OK bs
  /\ allChars isHexDigit (encodeHexUpper bs) = true.
Proof.
  induction bs as [|b r [IH1 IH2]]; [split; reflexivity|].
  rewrite encodeHexUpper_cons.
  destruct (encode_byte b) as (p & q & -> & Hp & Hq & B).
  change (String p (String q EmptyString) +:+ encodeHexUpper r)
    with (String p (String q (encodeHexUpper r))).
  split.
  - rewrite (DecodeString_pair p q _ Hp Hq), IH1, B. reflexivity.
  - cbn [allChars]. now rewrite Hp, Hq, IH2.
Qed.

Lemma ParseInt_encode hi lo :
  Go.ParseInt (encodeHexUpper [hi; lo]) 16
  = OK (256 * Go.byteVal hi + Go.byteVal lo).
Proof.
  pose (chk := fun hi lo : ascii =>
    match Go.ParseInt (encodeHexUpper [hi; lo]) 16 with
    | OK v => v =? 256 * Go.byteVal hi + Go.byteVal lo
    | Err _ => false
    end).
  assert (H : chk hi lo = true) by (apply forall_bytes2; vm_compute; reflexivity).
  unfold chk in H.
  destruct (Go.ParseInt _ 16) as [v|e]; [|discriminate].
  apply Z.eqb_eq in H. now subst.
Qed.

(** X14. [parseAddress] inverts the kernel's encoding.  For every IPv4
    address [a.b.c.d] and every port of two bytes, the field the kernel
    writes (the address bytes in reversed order, a colon, the port, all in
    upper-case hexadecimal digits) decodes to the dotted text of [a.b.c.d]
    and the decimal text of the port, and these two texts read back as the
    four octets and the port number. *)
Theorem parseAddress_kernelField a b c d hi lo :
  parseAddress (kernelField a b c d hi lo)
  = OK (Go.dotted a b c d, Go.FormatInt (256 * Go.byteVal hi + Go.byteVal lo))
  /\ parseDotted (Go.dotted a b c d) = Some [a; b; c; d]
  /\ Go.decimalValue (Go.FormatInt (256 * Go.byteVal hi + Go.byteVal lo))
     = Some (256 * Go.byteVal hi + Go.byteVal lo).
Proof.
  split; [|split; [apply parseDotted_dotted | apply decimalValue_FormatInt]].
  unfold kernelField.
  destruct (DecodeString_encode [d; c; b; a]) as [D A].
  destruct (DecodeString_encode [hi; lo]) as [_ P].
  rewrite parseAddress_parts, D, ParseInt_encode; [reflexivity| |].
  - eapply allChars_hasChar; [exact A | reflexivity].
  - eapply allChars_hasChar; [exact P | reflexivity].
Qed.

(** ** The primary interface *)

Lemma find_some_iff {A} (P : A -> bool) l :
  (exists x, In x l /\ P x = true) -> exists y, find P l = Some y.
Proof.
  intros (x & Hin & Hx).
  destruct (find P l) as [y|] eqn:F; [now exists y|].
  now rewrite (find_none P l F x Hin) in Hx.
Qed.

(** X15. [getPrimaryInterface] makes one enumeration and nothing else: it
    writes neither the cache nor the log and opens no file, so a failing
    enumeration and an interface that fails to give its addresses pass in
    silence.  Where some interface of the enumeration is up, is no loopback
    interface and holds an IPv4 network address, the answer is the name of
    such an interface, and of one named [eth...] or [en...] if there is one.
    An answer other than [unknown] is always the name of such an interface. *)
Theorem getPrimaryInterface_sound os st :
  snd (getPrimaryInterface os st)
  = {| interfaceCache := interfaceCache st;
       enumerations := S (enumerations st);
       opened := opened st; logged := logged st |}
  /\ (forall ifs,
        Interfaces os (enumerations st) = OK ifs ->
        (exists i, In i ifs /\ upWithIPv4 i = true) ->
        exists i, In i ifs /\ upWithIPv4 i = true
                  /\ fst (getPrimaryInterface os st) = Name i
                  /\ ((exists j, In j ifs /\ upWithIPv4 j = true
                                 /\ ethernetNamed j = true) ->
                      ethernetNamed i = true))
  /\ (fst (getPrimaryInterface os st) <> "unknown" ->
      exists ifs i,
        Interfaces os (enumerations st) = OK ifs
        /\ In i ifs /\ upWithIPv4 i = true
        /\ fst (getPrimaryInterface os st) = Name i).
Proof.
  rewrite getPrimaryInterface_spec. cbn [fst snd].
  split; [reflexivity|]. split.
  - intros ifs I Q. rewrite I. unfold primaryOf, ethernetFirst.
    destruct (find (fun i => ethernetNamed i && upWithIPv4 i) ifs) as [i|] eqn:F.
    + apply find_some in F as [Hin H]. apply andb_true_iff in H as [He Hu].
      exists i. repeat split; auto.
    + destruct (find_some_iff upWithIPv4 ifs Q) as [i F'].
      rewrite F'. apply find_some in F' as [Hin Hu].
      exists i. repeat split; auto.
      intros (j & Hj & Uj & Ej).
      pose proof (find_none _ _ F j Hj) as N. simpl in N.
      now rewrite Uj, Ej in N.
  - unfold primaryOf, ethernetFirst.
    destruct (Interfaces os (enumerations st)) as [ifs|e]; [|congruence].
    destruct (find (fun i => ethernetNamed i && upWithIPv4 i) ifs) as [i|] eqn:F.
    + apply find_some in F as [Hin H]. apply andb_true_iff in H as [He Hu].
      intros _. exists ifs, i. auto.
    + destruct (find upWithIPv4 ifs) as [i|] eqn:F'; [|simpl; congruence].
      apply find_some in F' as [Hin Hu]. intros _. exists ifs, i. auto.
Qed.
